(** * Marketing meme generator: a shallow embedding of [app.py]

    The program is a linear workflow around a generative-AI service.  The
    local logic is response unwrapping, file naming and persistence, the
    sequential loop over the selected rows and the assembly of the CSV and
    spreadsheet artifacts.  This file embeds that logic as executable
    functions over an explicit world (the working directory, the clock, the
    console and UI output) and proves or refutes the statements of the
    specification about it.

    Python objects are duck typed: the helper functions probe attributes
    with [hasattr], with truthiness tests and with [is None].  An attribute
    is therefore modelled with three states (missing, [None], a value), and
    every probe is written out as the source performs it. *)

From Stdlib Require Import String Ascii List Lia.
From Stdlib.Strings Require Import Byte.
From stdpp Require Import gmap strings list pretty.

Open Scope string_scope.
Open Scope list_scope.

(** ** Python values *)

(** The state of attribute [x] of an object [o]. *)
Inductive attr (A : Type) : Type :=
| Missing            (* [hasattr(o, 'x')] is False *)
| PyNone             (* [o.x is None] *)
| Given (a : A).     (* [o.x] holds a value *)
Arguments Missing {A}.
Arguments PyNone {A}.
Arguments Given {A} a.

(** The exceptions the modelled code can meet.  All of them derive from
    [Exception], so [except Exception] catches each one. *)
Inductive exn : Type :=
| AttributeError
| IndexError
| TypeError
| FileNotFoundError
| UnidentifiedImageError
| ParserError
| EmptyDataError
| ServiceError (msg : string).

Inductive outcome (A : Type) : Type :=
| Ret (a : A)
| Raise (e : exn).
Arguments Ret {A} a.
Arguments Raise {A} e.

(** ** The response shapes of the AI service *)

Record Blob := mkBlob {
  data : attr (list byte);
  mime_type : attr string
}.

Record Part := mkPart {
  text : attr string;
  inline_data : attr Blob
}.

Record Content := mkContent {
  parts : attr (list Part)
}.

Record Candidate := mkCandidate {
  content : attr Content
}.

(** A full response and a streamed chunk have the same shape.  [direct_parts]
    is the attribute [parts] of the response object itself (the flat shape). *)
Record Response := mkResponse {
  candidates : attr (list Candidate);
  direct_parts : attr (list Part)
}.

(** A streamed response: the chunks delivered, then either the end of the
    stream or an exception raised by the service. *)
Record stream := mkStream {
  chunks : list Response;
  failure : option exn
}.

(** ** Tabular data *)

(** A cell of a data frame: the text of the field, or a missing value. *)
Inductive cell : Type :=
| Str (s : string)
| NaN.

Definition DataFrame : Type := list (list cell).


(** One entry of [generated_images]. *)
Record artifact := mkArtifact {
  a_row : nat;
  image_path : string;
  a_meme_template : cell;
  a_prompt : cell;
  a_company_background : cell;
  a_marketing_message : cell;
  a_call_to_action : cell;
  a_target_audience : cell;
  a_platform : cell;
  a_theme : cell
}.

(** ** The spreadsheet *)

Inductive value : Type :=
| VInt (n : nat)
| VStr (s : string)
| VNaN.

Definition value_of_cell (c : cell) : value :=
  match c with Str s => VStr s | NaN => VNaN end.

(** An embedded image: the file it was loaded from, the bytes read and the
    display size. *)
Record XLImage := mkXLImage {
  ref : string;
  img_data : list byte;
  width : nat;
  height : nat
}.

Record Worksheet := mkWorksheet {
  title : string;
  cells : gmap (nat * nat) value;     (* (row, column), both from 1 *)
  images : list (string * XLImage)    (* anchor cell and image, in insertion order *)
}.

(** ** The world *)

Inductive file : Type :=
| Bytes (b : list byte)
| Text (s : string)
| Xlsx (ws : Worksheet).

(** Console and UI output, one constructor per message of the source. *)
Inductive event : Type :=
| FileSaved (file_name : string)
| NoResponseToDisplay
| DisplayMarkdown (s : string)
| ImageSize (w h : nat)
| DisplayImage (b : list byte)
| CouldNotDisplay (e : exn)
| PromptEcho (s : string)
| ResponseReceived
| EmptyResponse
| ErrorMsg (e : exn)
| StartingStream
| Dot
| TextEcho (s : string)
| ImageGenerated (w h : nat)
| StreamingComplete (n : nat)
| StreamingError (e : exn)
| StSpinner (s : string)
| StSuccess (s : string)
| StWarning (s : string)
| StError (s : string) (e : exn)
| StDataframe (df : DataFrame)
| StDownloadButton (label : string) (file_name : string) (body : file)
| StImage (path : string) (caption : string).

Record world := mkWorld {
  fs : gmap string file;    (* the working directory *)
  clock : nat;              (* readings of the clock taken so far *)
  requests : nat;           (* requests sent to the AI service so far *)
  log : list event          (* output, oldest first *)
}.

(** What the program does not own: the clock, the table of [mimetypes], the
    image decoder, the AI service, and [pandas] where its parse is not
    computed here. *)
Class Env := mkEnv {
  (* [datetime.now().strftime("%Y%m%d_%H%M%S")] at the n-th reading *)
  now : nat -> string;
  (* the table behind [mimetypes.guess_extension], on a string *)
  guess_extension : string -> option string;
  (* [Image.open(...)] on bytes: the size, or no image *)
  image_open : list byte -> option (nat * nat);
  (* [client.models.generate_content_stream]: the n-th request, its prompt *)
  generate_content_stream : nat -> string -> stream;
  (* [client.models.generate_content] with the image model *)
  generate_content_image : nat -> string -> outcome (option Response);
  (* [client.models.generate_content] with the text model: [response.text] *)
  generate_content_text : nat -> string -> outcome (option string);
  (* [pd.read_csv(StringIO(text), header=None, names=names)] on text with
     quoted fields or with fields that pandas converts; a converted value is
     given by its text *)
  pandas_read_csv : string -> list string -> outcome DataFrame
}.

(** ** A state and exception monad

    A function body runs over its local variables [L] and the world.  An
    exception leaves both as they were when it was raised, which is what a
    Python handler sees. *)

Record frame (L : Type) := mkFrame {
  locals : L;
  world_of : world
}.
Arguments mkFrame {L} locals world_of.
Arguments locals {L} f.
Arguments world_of {L} f.

Definition M (L A : Type) : Type := frame L -> outcome A * frame L.

Definition ret {L A} (a : A) : M L A := fun s => (Ret a, s).

Definition raise {L A} (e : exn) : M L A := fun s => (Raise e, s).

Definition bind {L A B} (m : M L A) (k : A -> M L B) : M L B :=
  fun s => match m s with
           | (Ret a, s') => k a s'
           | (Raise e, s') => (Raise e, s')
           end.

Declare Scope py_scope.
Delimit Scope py_scope with py.
Notation "x <- c1 ;; c2" := (bind c1 (fun x => c2))
  (at level 100, c1 at next level, right associativity) : py_scope.
Notation "c1 ;; c2" := (bind c1 (fun _ => c2))
  (at level 100, right associativity) : py_scope.
Open Scope py_scope.

(** [try: body / except Exception as e: handler e]. *)
Definition try_except {L A} (body : M L A) (handler : exn -> M L A) : M L A :=
  fun s => match body s with
           | (Ret a, s') => (Ret a, s')
           | (Raise e, s') => handler e s'
           end.

Definition get_locals {L} : M L L := fun s => (Ret (locals s), s).

Definition set_locals {L} (l : L) : M L unit :=
  fun s => (Ret tt, mkFrame l (world_of s)).

Definition get_world {L} : M L world := fun s => (Ret (world_of s), s).

Definition set_world {L} (w : world) : M L unit :=
  fun s => (Ret tt, mkFrame (locals s) w).

(** [print(...)], [display(...)] and the [st.*] calls. *)
Definition emit {L} (e : event) : M L unit :=
  w <- get_world ;;
  set_world (mkWorld (fs w) (clock w) (requests w) (log w ++ [e])).

(** [open(file_name, "wb").write(data)]: creates or overwrites. *)
Definition write_file {L} (file_name : string) (body : file) : M L unit :=
  w <- get_world ;;
  set_world (mkWorld (<[file_name := body]> (fs w)) (clock w) (requests w) (log w)).

(** One reading of the clock, formatted. *)
Definition timestamp_now `{Env} {L} : M L string :=
  w <- get_world ;;
  set_world (mkWorld (fs w) (S (clock w)) (requests w) (log w)) ;;
  ret (now (clock w)).

(** The number of the next request; the counter advances. *)
Definition next_request {L} : M L nat :=
  w <- get_world ;;
  set_world (mkWorld (fs w) (clock w) (S (requests w)) (log w)) ;;
  ret (requests w).

(** Runs a callee with locals of its own in the caller's world. *)
Definition call {L L' A} (callee : M L' A) (init : L') : M L A :=
  fun s => match callee (mkFrame init (world_of s)) with
           | (r, s') => (r, mkFrame (locals s) (world_of s'))
           end.

(** [for x in xs: body x]. *)
Fixpoint for_each {L A} (xs : list A) (body : A -> M L unit) : M L unit :=
  match xs with
  | [] => ret tt
  | x :: xs' => body x ;; for_each xs' body
  end.

(** [for i, x in enumerate(xs, start): body i x]. *)
Fixpoint for_enumerate {L A} (start : nat) (xs : list A)
    (body : nat -> A -> M L unit) : M L unit :=
  match xs with
  | [] => ret tt
  | x :: xs' => body start x ;; for_enumerate (S start) xs' body
  end.

(** [hasattr(o, 'x')]. *)
Definition hasattr {A} (a : attr A) : bool :=
  match a with Missing => false | _ => true end.

(** [o.x], which raises when the object lacks the attribute. *)
Definition getattr {L A} (a : attr A) : M L (option A) :=
  match a with
  | Missing => raise AttributeError
  | PyNone => ret None
  | Given v => ret (Some v)
  end.

(** The list a [for] statement walks: [None] is not iterable. *)
Definition iter {L A} (xs : option (list A)) : M L (list A) :=
  match xs with
  | None => raise TypeError
  | Some l => ret l
  end.

(** A result of the environment, returned or raised. *)
Definition lift {L A} (r : outcome A) : M L A :=
  match r with
  | Ret a => ret a
  | Raise e => raise e
  end.

(** [xs[0]]. *)
Definition first_item {L A} (xs : list A) : M L A :=
  match xs with
  | [] => raise IndexError
  | x :: _ => ret x
  end.

(** [s[:100]], in characters of the model's strings. *)
Definition first100 (s : string) : string := substring 0 100 s.

(** [str(n)] for a non-negative [int]. *)
Definition str (n : nat) : string := pretty n.

(** ** Section 4 of the source: helper functions *)

Definition save_binary_file {L} (file_name : string) (d : list byte) : M L string :=
  write_file file_name (Bytes d) ;;
  emit (FileSaved file_name) ;;
  ret file_name.

(** [Image.open(BytesIO(d))], giving [image.size]. *)
Definition Image_open `{Env} {L} (d : list byte) : M L (nat * nat) :=
  match image_open d with
  | Some size => ret size
  | None => raise UnidentifiedImageError
  end.

Definition process_part `{Env} {L} (part : Part) : M L unit :=
  (* if hasattr(part, 'text') and part.text *)
  match text part with
  | Given (String c s) => emit (DisplayMarkdown (String c s))
  | _ => ret tt
  end ;;
  (* if hasattr(part, 'inline_data') and part.inline_data *)
  match inline_data part with
  | Given blob =>
      (* if hasattr(part.inline_data, 'data') and part.inline_data.data *)
      match data blob with
      | Given (b :: bs) =>
          try_except
            (size <- Image_open (b :: bs) ;;
             emit (ImageSize (fst size) (snd size)) ;;
             emit (DisplayImage (b :: bs)))
            (fun e => emit (CouldNotDisplay e))
      | _ => ret tt
      end
  | _ => ret tt
  end.

Definition display_response `{Env} {L} (response : option Response) : M L unit :=
  match response with
  | None => emit NoResponseToDisplay
  | Some r =>
      match candidates r with
      | Given (c :: cs) =>
          for_each (c :: cs) (fun candidate =>
            match content candidate with
            | Given ct =>
                if hasattr (parts ct)
                then (v <- getattr (parts ct) ;;
                      ps <- iter v ;;
                      for_each ps process_part)
                else ret tt
            | _ => ret tt
            end)
      | _ =>
          if hasattr (direct_parts r)
          then (v <- getattr (direct_parts r) ;;
                ps <- iter v ;;
                for_each ps process_part)
          else ret tt
      end
  end.

(** [getattr(part.inline_data, 'mime_type', 'image/png')]: the default is
    used when the attribute is missing; an attribute that holds [None] is
    returned as it is. *)
Definition mime_type_or_default (blob : Blob) : option string :=
  match mime_type blob with
  | Missing => Some "image/png"
  | PyNone => None
  | Given m => Some m
  end.

(** [mimetypes.guess_extension(mime_type) or '.png'].  The library lowers
    its argument first, so [None] raises [AttributeError]. *)
Definition extension `{Env} {L} (mime : option string) : M L string :=
  match mime with
  | None => raise AttributeError
  | Some m =>
      ret (match guess_extension m with
           | Some (String c s) => String c s
           | _ => ".png"
           end)
  end.

(** The body of the two loops over [enumerate(...parts)]. *)
Definition extract_part `{Env} (prefix : string) (i : nat) (part : Part)
    : M (list string) unit :=
  match inline_data part with
  | Given blob =>
      match data blob with
      | Given (b :: bs) =>
          timestamp <- timestamp_now ;;
          ext <- extension (mime_type_or_default blob) ;;
          let filename := prefix +:+ "_" +:+ timestamp +:+ "_" +:+ str i +:+ ext in
          save_binary_file filename (b :: bs) ;;
          saved_files <- get_locals ;;
          set_locals (saved_files ++ [filename])
      | _ => ret tt
      end
  | _ => ret tt
  end.

Definition extract_and_save_images `{Env} {L} (response : option Response)
    (prefix : string) : M L (list string) :=
  call
    (match response with
     | None => get_locals
     | Some r =>
         match candidates r with
         | Given (c :: cs) =>
             for_each (c :: cs) (fun candidate =>
               match content candidate with
               | Given ct =>
                   if hasattr (parts ct)
                   then (v <- getattr (parts ct) ;;
                         ps <- iter v ;;
                         for_enumerate 0 ps (extract_part prefix))
                   else ret tt
               | _ => ret tt
               end)
         | _ =>
             if hasattr (direct_parts r)
             then (v <- getattr (direct_parts r) ;;
                   ps <- iter v ;;
                   for_enumerate 0 ps (extract_part prefix))
             else ret tt
         end ;;
         get_locals
     end)
    [].

(** ** Section 5: basic image generation *)

Definition generate_image_basic `{Env} {L} (prompt : string) : M L (list string) :=
  emit (PromptEcho (first100 prompt)) ;;
  try_except
    (n <- next_request ;;
     response <- lift (generate_content_image n prompt) ;;
     match response with
     | Some _ =>
         emit ResponseReceived ;;
         display_response response ;;
         extract_and_save_images response "basic"
     | None =>
         emit EmptyResponse ;;
         ret []
     end)
    (fun e => emit (ErrorMsg e) ;; ret []).

(** ** Section 6: streaming image generation *)

Record stream_locals := mkLocals {
  saved_files : list string;
  file_index : nat
}.

Definition stream_part `{Env} (save_prefix : string) (part : Part)
    : M stream_locals unit :=
  (* if hasattr(part, 'text') and part.text *)
  match text part with
  | Given (String c s) => emit (TextEcho (first100 (String c s)))
  | _ => ret tt
  end ;;
  (* if part.inline_data and part.inline_data.data *)
  blob <- getattr (inline_data part) ;;
  match blob with
  | None => ret tt
  | Some blob =>
      d <- getattr (data blob) ;;
      match d with
      | Some (b :: bs) =>
          ext <- extension (mime_type_or_default blob) ;;
          l <- get_locals ;;
          let filename := save_prefix +:+ "_" +:+ str (file_index l) +:+ ext in
          save_binary_file filename (b :: bs) ;;
          set_locals (mkLocals (saved_files l ++ [filename]) (file_index l)) ;;
          set_locals (mkLocals (saved_files l ++ [filename]) (S (file_index l))) ;;
          (* try: ... except: pass *)
          try_except
            (size <- Image_open (b :: bs) ;;
             emit (ImageGenerated (fst size) (snd size)) ;;
             emit (DisplayImage (b :: bs)))
            (fun _ => ret tt)
      | _ => ret tt
      end
  end.

Definition stream_chunk `{Env} (save_prefix : string) (chunk : Response)
    : M stream_locals unit :=
  emit Dot ;;
  (* chunk.candidates is None *)
  cands <- getattr (candidates chunk) ;;
  match cands with
  | None => ret tt
  | Some cs =>
      (* chunk.candidates[0].content is None *)
      c0 <- first_item cs ;;
      ct <- getattr (content c0) ;;
      match ct with
      | None => ret tt
      | Some ct =>
          (* chunk.candidates[0].content.parts is None *)
          ps <- getattr (parts ct) ;;
          match ps with
          | None => ret tt
          | Some ps => for_each ps (stream_part save_prefix)
          end
      end
  end.

(** [for chunk in <stream>: body chunk]: the chunks in delivery order, then
    the exception of the service when the stream ends with one. *)
Definition for_stream {L} (s : stream) (body : Response -> M L unit) : M L unit :=
  for_each (chunks s) body ;;
  match failure s with
  | Some e => raise e
  | None => ret tt
  end.

Definition generate_image_streaming `{Env} {L} (prompt save_prefix : string)
    : M L (list string) :=
  call
    (emit (PromptEcho (first100 prompt)) ;;
     try_except
       (emit StartingStream ;;
        l <- get_locals ;;
        set_locals (mkLocals (saved_files l) 0) ;;
        n <- next_request ;;
        for_stream (generate_content_stream n prompt) (stream_chunk save_prefix) ;;
        l <- get_locals ;;
        emit (StreamingComplete (length (saved_files l))) ;;
        ret (saved_files l))
       (fun e =>
          emit (StreamingError e) ;;
          l <- get_locals ;;
          ret (saved_files l)))
    (mkLocals [] 0).

(** ** Text helpers *)

Definition nl : string := String (ascii_of_nat 10) EmptyString.

Definition dquote : ascii := ascii_of_nat 34.

(** The 16 blanks that indent the prompt templates in the source. *)
Definition indent : string := "                ".


(** The pieces of [s] between occurrences of [sep]; never the empty list. *)
Fixpoint split (sep : ascii) (s : string) : list string :=
  match s with
  | EmptyString => [EmptyString]
  | String c s' =>
      if Ascii.eqb c sep then EmptyString :: split sep s'
      else match split sep s' with
           | f :: fs => String c f :: fs
           | [] => [String c EmptyString]
           end
  end.

Fixpoint string_forallb (p : ascii -> bool) (s : string) : bool :=
  match s with
  | EmptyString => true
  | String c s' => p c && string_forallb p s'
  end.

(** The ASCII characters for which [str.isspace] holds. *)
Definition is_space (c : ascii) : bool :=
  let n := nat_of_ascii c in
  (Nat.leb 9 n && Nat.leb n 13) || (Nat.leb 28 n && Nat.leb n 32).

Fixpoint lstrip (s : string) : string :=
  match s with
  | String c s' => if is_space c then lstrip s' else s
  | EmptyString => EmptyString
  end.

Fixpoint rstrip (s : string) : string :=
  match s with
  | EmptyString => EmptyString
  | String c s' =>
      match rstrip s' with
      | EmptyString => if is_space c then EmptyString else String c EmptyString
      | r => String c r
      end
  end.

(** [s.strip()]. *)
Definition strip (s : string) : string := rstrip (lstrip s).

(** ** Reading and writing delimited text

    [pandas] is a library, not code of the program.  [read_csv] is
    [pd.read_csv(StringIO(text), header=None, names=names)] with the default
    C parser.  Its result is computed here on [verbatim] text: text that
    holds no quote character and no carriage return, and whose fields are
    spellings of a missing value or words that pandas keeps as they are
    (they start with a letter and are no spelling of infinity, of not a
    number or of a truth value).  There lines are split at line feeds, lines
    of blanks and tabs only are skipped, fields are split at commas, the
    expected number of fields is the larger of the first line's and of
    [len(names)], a line with more fields is a parser error, a line with
    fewer is padded with missing values, columns in excess of the names
    become the index, and text without any record gives a frame without
    rows.  On any other text (quoted fields, numbers, truth values) the
    result is the environment's [pandas_read_csv]. *)























(** ** Section 7: the Streamlit steps *)

Record BusinessInfo := mkBusinessInfo {
  info_name : string;
  info_website : string;
  info_about : string
}.

(** [st.session_state]: a key is absent until a step stores it. *)
Record session_state := mkSession {
  business_info : option BusinessInfo;
  marketing_data : option DataFrame;
  generated_images : option (list artifact)
}.



(** [marketing_data.iloc[idx]]. *)
Definition iloc {L} (df : DataFrame) (idx : nat) : M L (list cell) :=
  match df !! idx with
  | Some row => ret row
  | None => raise IndexError
  end.

(** [row[name]] for one of the eight column names, by its position. *)
Definition column (i : nat) (row : list cell) : cell := nth i row NaN.

(** A cell inside an f-string. *)
Definition fmt (c : cell) : string :=
  match c with
  | Str s => s
  | NaN => "nan"
  end.

Definition meme_prompt (row : list cell) : string :=
  nl
  +:+ indent +:+ String dquote "Create a meme using the '" +:+ fmt (column 0 row) +:+ "' style. " +:+ nl
  +:+ indent +:+ "The meme should tell a short, funny, and relatable story targeting "
      +:+ fmt (column 5 row) +:+ " on " +:+ fmt (column 6 row) +:+ ".  " +:+ nl
  +:+ nl
  +:+ indent +:+ "Company Background : Complytics.ai, " +:+ fmt (column 2 row) +:+ "  " +:+ nl
  +:+ indent +:+ "Marketing Message : " +:+ fmt (column 3 row) +:+ "  " +:+ nl
  +:+ indent +:+ "Call to Action to use Complytics.ai : " +:+ fmt (column 4 row) +:+ "  " +:+ nl
  +:+ nl
  +:+ indent +:+ "Theme: " +:+ fmt (column 7 row) +:+ "  " +:+ nl
  +:+ nl
  +:+ indent +:+ "Ensure the meme humor connects with the target audience while subtly highlighting the value of the company. " +:+ nl
  +:+ indent +:+ "The final meme should be engaging, visually clear, and suitable for viral social media marketing." +:+ nl
  +:+ indent +:+ "Avoid adding any company logo. Dont make spelling mistake" +:+ String dquote nl
  +:+ indent.

(** [Image.open(path)] on a file of the working directory. *)
Definition Image_open_path `{Env} {L} (path : string) : M L (list byte * (nat * nat)) :=
  w <- get_world ;;
  match fs w !! path with
  | None => raise FileNotFoundError
  | Some (Bytes d) => size <- Image_open d ;; ret (d, size)
  | Some _ => raise UnidentifiedImageError
  end.

(** The artifact recorded for row [idx] with image [path]. *)
Definition artifact_of (idx : nat) (path : string) (row : list cell) : artifact :=
  mkArtifact idx path (column 0 row) (column 1 row) (column 2 row) (column 3 row)
             (column 4 row) (column 5 row) (column 6 row) (column 7 row).

(** One turn of the loop over [selected_indices]; the local variable is
    the list [generated_images]. *)
Definition generate_meme `{Env} (df : DataFrame) (idx : nat) : M (list artifact) unit :=
  row <- iloc df idx ;;
  emit (StSpinner ("Generating meme for Row " +:+ str idx +:+ "...")) ;;
  try_except
    (saved <- generate_image_streaming (meme_prompt row) ("meme_" +:+ str idx) ;;
     match saved with
     | [] => ret tt
     | first :: _ =>
         generated <- get_locals ;;
         set_locals (generated ++ [artifact_of idx first row]) ;;
         Image_open_path first ;;
         emit (StImage first ("Meme for Row " +:+ str idx))
     end)
    (fun e => emit (StError ("Failed for Row " +:+ str idx) e)).

(** Step 3, when the generation button is pressed with [selected_indices]. *)
Definition generate_memes `{Env} (selected_indices : list nat) : M session_state unit :=
  st <- get_locals ;;
  match marketing_data st with
  | None => emit (StWarning "Please complete Step 2 first.")
  | Some df =>
      match selected_indices with
      | [] => ret tt
      | _ =>
          generated <- call (for_each selected_indices (generate_meme df) ;; get_locals) [] ;;
          st <- get_locals ;;
          set_locals (mkSession (business_info st) (marketing_data st) (Some generated)) ;;
          emit (StSuccess ("Generated " +:+ str (length generated) +:+ " memes!"))
      end
  end.

(** *** Export to Excel *)

Definition headers : list string :=
  ["Row"; "Meme Template"; "Prompt"; "Company Background"; "Marketing Message";
   "Call to Action"; "Target Audience"; "Platform"; "Theme"; "Image"].

(** [ws.cell(row=r, column=c, value=v)]. *)
Definition ws_cell (r c : nat) (v : value) : M Worksheet unit :=
  ws <- get_locals ;;
  set_locals (mkWorksheet (title ws) (<[(r, c) := v]> (cells ws)) (images ws)).

(** [XLImage(path)]: the file is opened and decoded for its size. *)
Definition XLImage_load `{Env} {L} (path : string) : M L XLImage :=
  loaded <- Image_open_path path ;;
  ret (mkXLImage path (fst loaded) (fst (snd loaded)) (snd (snd loaded))).

(** [ws.add_image(img, anchor)]. *)
Definition add_image (img : XLImage) (anchor : string) : M Worksheet unit :=
  ws <- get_locals ;;
  set_locals (mkWorksheet (title ws) (cells ws) (images ws ++ [(anchor, img)])).

Definition export_row `{Env} (row_idx : nat) (item : artifact) : M Worksheet unit :=
  ws_cell row_idx 1 (VInt (a_row item)) ;;
  ws_cell row_idx 2 (value_of_cell (a_meme_template item)) ;;
  ws_cell row_idx 3 (value_of_cell (a_prompt item)) ;;
  ws_cell row_idx 4 (value_of_cell (a_company_background item)) ;;
  ws_cell row_idx 5 (value_of_cell (a_marketing_message item)) ;;
  ws_cell row_idx 6 (value_of_cell (a_call_to_action item)) ;;
  ws_cell row_idx 7 (value_of_cell (a_target_audience item)) ;;
  ws_cell row_idx 8 (value_of_cell (a_platform item)) ;;
  ws_cell row_idx 9 (value_of_cell (a_theme item)) ;;
  img <- XLImage_load (image_path item) ;;
  let img := mkXLImage (ref img) (img_data img) 200 (height img) in
  let img := mkXLImage (ref img) (img_data img) (width img) 200 in
  add_image img ("J" +:+ str row_idx).

(** The workbook as built before it is saved. *)
Definition build_workbook `{Env} (items : list artifact) : M Worksheet Worksheet :=
  ws <- get_locals ;;
  set_locals (mkWorksheet "Memes" (cells ws) (images ws)) ;;
  for_enumerate 1 headers (fun col header => ws_cell 1 col (VStr header)) ;;
  for_enumerate 2 items export_row ;;
  get_locals.

(** Step 3, when the export button is pressed. *)
Definition export_to_excel `{Env} : M session_state unit :=
  st <- get_locals ;;
  match marketing_data st with
  | None => emit (StWarning "Please complete Step 2 first.")
  | Some _ =>
      match generated_images st with
      | None => ret tt
      | Some items =>
          wb <- call (build_workbook items) (mkWorksheet "Sheet" ∅ []) ;;
          write_file "memes_export.xlsx" (Xlsx wb) ;;
          emit (StDownloadButton "Download Excel" "memes_export.xlsx" (Xlsx wb))
      end
  end.

(** *** Step 3: the selection of rows *)

(** The text of the multiselect option of row [i]. *)
Definition option_text (i : nat) (row : list cell) : string :=
  "Row " +:+ str i +:+ ": " +:+ fmt (column 0 row).

Definition options_list (df : DataFrame) : list string :=
  "Select All" :: imap option_text df.

(** [s.replace(old, new)]: the occurrences of [old] are replaced from left
    to right without overlap.  [skip] counts the characters of an
    occurrence still to be dropped. *)
Fixpoint replace_go (old new : string) (skip : nat) (s : string) : string :=
  match s with
  | EmptyString => EmptyString
  | String c s' =>
      match skip with
      | S k => replace_go old new k s'
      | 0 =>
          if String.prefix old s
          then new +:+ replace_go old new (String.length old - 1) s'
          else String c (replace_go old new 0 s')
      end
  end.

(** With an empty [old], [new] is put before every character and at the
    end. *)
Fixpoint intersperse (new s : string) : string :=
  match s with
  | EmptyString => new
  | String c s' => new +:+ String c (intersperse new s')
  end.

Definition replace (old new s : string) : string :=
  match old with
  | EmptyString => intersperse new s
  | _ => replace_go old new 0 s
  end.

Definition is_digit (c : ascii) : bool :=
  Nat.leb 48 (nat_of_ascii c) && Nat.leb (nat_of_ascii c) 57.

Definition digit_value (c : ascii) : Z := Z.of_nat (nat_of_ascii c - 48).

(** The digits after the first one: single underscores may separate
    digits. *)
Fixpoint int_digits (acc : Z) (s : string) : option Z :=
  match s with
  | EmptyString => Some acc
  | String c s' =>
      if is_digit c then int_digits (10 * acc + digit_value c)%Z s'
      else if Ascii.eqb c "_"
      then match s' with
           | String d s'' =>
               if is_digit d then int_digits (10 * acc + digit_value d)%Z s'' else None
           | EmptyString => None
           end
      else None
  end.

Definition int_unsigned (s : string) : option Z :=
  match s with
  | String d s' => if is_digit d then int_digits (digit_value d) s' else None
  | EmptyString => None
  end.

(** [int(s)] on ASCII text, base 10: blanks around the literal, an
    optional sign, digits.  [None] stands for [ValueError]. *)
Definition int (s : string) : option Z :=
  match strip s with
  | String "+" t => int_unsigned t
  | String "-" t => Z.opp <$> int_unsigned t
  | t => int_unsigned t
  end.

(** [opt.split(":")[0]]. *)
Definition before_colon (opt : string) : string :=
  match split ":" opt with
  | piece :: _ => piece
  | [] => EmptyString
  end.

(** The indices of the rows to generate memes for, from the options
    chosen in the multiselect. *)
Definition selected_indices (selected_options : list string) (df : DataFrame)
    : option (list Z) :=
  if existsb (String.eqb "Select All") selected_options
  then Some (map Z.of_nat (seq 0 (length df)))
  else mapM (fun opt => int (replace "Row " EmptyString (before_colon opt)))
            (List.filter (fun opt => negb (String.eqb opt "Select All")) selected_options).

(** * The vocabulary of the statements *)

(** A property of the frame that a computation keeps, however it ends. *)
Definition preserves {L A} (P : frame L -> Prop) (m : M L A) : Prop :=
  forall s, P s -> P (snd (m s)).

(** An extension the naming can produce: one the table gives for some mime
    type, or the fallback. *)
Definition derived_extension `{Env} (ext : string) : Prop :=
  ext = ".png" \/ exists mime, guess_extension mime = Some ext.

(** The invariant of the streaming loop: the index counts the files saved,
    the k-th file saved carries index k, and every file saved is in the
    working directory. *)
Definition stream_inv `{Env} (save_prefix : string) (s : frame stream_locals) : Prop :=
  file_index (locals s) = length (saved_files (locals s)) /\
  (forall k f, saved_files (locals s) !! k = Some f ->
     exists ext, derived_extension ext /\ f = save_prefix +:+ "_" +:+ str k +:+ ext) /\
  (forall f, f ∈ saved_files (locals s) ->
     exists d, fs (world_of s) !! f = Some (Bytes d)).

(** The world in which the chunks are consumed: the prompt was echoed, the
    stream announced and the request counted. *)
Definition started (w : world) (prompt : string) : world :=
  mkWorld (fs w) (clock w) (S (requests w))
          ((log w ++ [PromptEcho (first100 prompt)]) ++ [StartingStream]).

(** The world the request leaves: the last message tells how the stream
    ended. *)
Definition finished (r : outcome unit) (s : frame stream_locals) : world :=
  mkWorld (fs (world_of s)) (clock (world_of s)) (requests (world_of s))
          (log (world_of s) ++
             [match r with
              | Ret _ => StreamingComplete (length (saved_files (locals s)))
              | Raise e => StreamingError e
              end]).

(** The parts sequences [extract_and_save_images] walks: one for each
    candidate that has content with a list of parts, or the direct parts of
    a response without candidates. *)
Definition parts_sequences (r : Response) : list (list Part) :=
  match candidates r with
  | Given (c :: cs) =>
      omap (fun candidate =>
              match content candidate with
              | Given ct => match parts ct with Given ps => Some ps | _ => None end
              | _ => None
              end) (c :: cs)
  | _ => match direct_parts r with Given ps => [ps] | _ => [] end
  end.

(** The values of the nine data columns of an artifact's row. *)
Definition artifact_values (item : artifact) : list value :=
  [VInt (a_row item); value_of_cell (a_meme_template item);
   value_of_cell (a_prompt item); value_of_cell (a_company_background item);
   value_of_cell (a_marketing_message item); value_of_cell (a_call_to_action item);
   value_of_cell (a_target_audience item); value_of_cell (a_platform item);
   value_of_cell (a_theme item)].

(** The value of column [c] (from 1) in the row of an artifact. *)
Definition data_cell (item : artifact) (c : nat) : option value :=
  match c with
  | 0 => None
  | S c' => artifact_values item !! c'
  end.

(** The sheet the specification describes: the header row, then one row
    per artifact in the order of the list. *)
Definition expected_cell (items : list artifact) (r c : nat) : option value :=
  match r, c with
  | 0, _ => None
  | _, 0 => None
  | 1, S c' => VStr <$> headers !! c'
  | S (S i), _ => item ← items !! i; data_cell item c
  end.

(** An image file that is present and decodes. *)
Definition loadable `{Env} (w : world) (path : string) : Prop :=
  exists d size, fs w !! path = Some (Bytes d) /\ image_open d = Some size.

(** The cells one turn of the export loop writes. *)
Definition row_cells (n : nat) (item : artifact) (m : gmap (nat * nat) value)
    : gmap (nat * nat) value :=
  <[(n, 9) := value_of_cell (a_theme item)]>
  (<[(n, 8) := value_of_cell (a_platform item)]>
  (<[(n, 7) := value_of_cell (a_target_audience item)]>
  (<[(n, 6) := value_of_cell (a_call_to_action item)]>
  (<[(n, 5) := value_of_cell (a_marketing_message item)]>
  (<[(n, 4) := value_of_cell (a_company_background item)]>
  (<[(n, 3) := value_of_cell (a_prompt item)]>
  (<[(n, 2) := value_of_cell (a_meme_template item)]>
  (<[(n, 1) := VInt (a_row item)]> m)))))))).

(** The cells the export loop writes for [items], from row [n] on. *)
Fixpoint rows_cells (n : nat) (items : list artifact) (m : gmap (nat * nat) value)
    : gmap (nat * nat) value :=
  match items with
  | [] => m
  | item :: rest => rows_cells (S n) rest (row_cells n item m)
  end.

(** The bytes of an image file, as the export reads them. *)
Definition bytes_at (w : world) (path : string) : list byte :=
  match fs w !! path with
  | Some (Bytes d) => d
  | _ => []
  end.

(** The images the export loop embeds for [items], from row [n] on: each
    anchored in column J of its row, at 200 x 200. *)
Fixpoint embedded (w : world) (n : nat) (items : list artifact) : list (string * XLImage) :=
  match items with
  | [] => []
  | item :: rest =>
      ("J" +:+ str n, mkXLImage (image_path item) (bytes_at w (image_path item)) 200 200)
      :: embedded w (S n) rest
  end.

(** The cells of the header row. *)
Definition header_cells (m : gmap (nat * nat) value) : gmap (nat * nat) value :=
  <[(1, 10) := VStr "Image"]>
  (<[(1, 9) := VStr "Theme"]>
  (<[(1, 8) := VStr "Platform"]>
  (<[(1, 7) := VStr "Target Audience"]>
  (<[(1, 6) := VStr "Call to Action"]>
  (<[(1, 5) := VStr "Marketing Message"]>
  (<[(1, 4) := VStr "Company Background"]>
  (<[(1, 3) := VStr "Prompt"]>
  (<[(1, 2) := VStr "Meme Template"]>
  (<[(1, 1) := VStr "Row"]> m))))))))).



(** A chunk whose path to the parts holds [None] at some level. *)
Definition without_parts (chunk : Response) : Prop :=
  candidates chunk = PyNone \/
  exists c cs, candidates chunk = Given (c :: cs) /\
    (content c = PyNone \/ exists ct, content c = Given ct /\ parts ct = PyNone).

(** A string that does not go on with a digit: it is empty or starts with
    another character. *)
Definition stops (e : string) : Prop :=
  match e with
  | EmptyString => True
  | String c _ => is_digit c = false
  end.

(** The number a string of digits denotes. *)
Fixpoint digits_value (s : string) : Z :=
  match s with
  | EmptyString => 0
  | String c s' => (digit_value c * 10 ^ Z.of_nat (String.length s') + digits_value s')%Z
  end.

(** A file of image bytes in the working directory. *)
Definition on_disk (w : world) (f : string) : Prop :=
  exists d, fs w !! f = Some (Bytes d).

(** A property of the working directory that writing an image keeps. *)
Definition kept_by_writes (Q : gmap string file -> Prop) : Prop :=
  forall m name d, Q m -> Q (<[name := Bytes d]> m).

(** The working directory satisfies [Q], the clock was read [c] times and
    [n] requests were sent. *)
Definition world_is {L} (Q : gmap string file -> Prop) (c n : nat) (s : frame L) : Prop :=
  Q (fs (world_of s)) /\ clock (world_of s) = c /\ requests (world_of s) = n.

(** The extensions of the table start with a dot, as those of [mimetypes]
    do. *)
Definition dotted_table `{Env} : Prop :=
  forall mime e, guess_extension mime = Some e -> exists t, e = String "." t.

(** An artifact as the meme loop records it: the fields of its row, and as
    image the first file of the row's request, which is in the working
    directory. *)
Definition recorded `{Env} (df : DataFrame) (w : world) (a : artifact) : Prop :=
  exists row ext,
    df !! a_row a = Some row /\ derived_extension ext /\
    a = artifact_of (a_row a) (("meme_" +:+ str (a_row a)) +:+ "_" +:+ str 0 +:+ ext) row /\
    on_disk w (image_path a).

(** The exceptions a computation can end with are among [E]. *)
Definition raises_only {L A} (E : exn -> Prop) (m : M L A) : Prop :=
  forall s e, fst (m s) = Raise e -> E e.

(** From [w] to [w'] only messages were added. *)
Definition only_logged (w w' : world) : Prop :=
  fs w' = fs w /\ clock w' = clock w /\ requests w' = requests w /\
  exists lg, log w' = log w ++ lg.

(** The locals are [l0] and the world differs from [w0] by messages. *)
Definition logged {L} (l0 : L) (w0 : world) (s : frame L) : Prop :=
  locals s = l0 /\ only_logged w0 (world_of s).

(** A parts attribute that [display_response] walks holds [None]. *)
Definition parts_none (r : Response) : Prop :=
  match candidates r with
  | Given (c :: cs) =>
      exists candidate ct,
        candidate ∈ c :: cs /\ content candidate = Given ct /\ parts ct = PyNone
  | _ => direct_parts r = PyNone
  end.

(** Every file of the list built so far is in the working directory, which
    satisfies [Q], and [n] requests were sent. *)
Definition saved_on_disk (Q : gmap string file -> Prop) (n : nat)
    (s : frame (list string)) : Prop :=
  (forall f, f ∈ locals s -> on_disk (world_of s) f) /\
  Q (fs (world_of s)) /\ requests (world_of s) = n.

(** The image a part carries: its non-empty data and the extension of its
    mime type.  A part without data carries none, and neither does data
    whose [mime_type] is [None], which is never saved. *)
Definition image_of `{Env} (part : Part) : option (list byte * string) :=
  match inline_data part with
  | Given blob =>
      match data blob, mime_type_or_default blob with
      | Given (b :: bs), Some mime =>
          Some (b :: bs,
                match guess_extension mime with
                | Some (String c s) => String c s
                | _ => ".png"
                end)
      | _, _ => None
      end
  | _ => None
  end.

(** The working directory after the files [saves], names with their bytes,
    were written in this order. *)
Definition write_all (saves : list (string * list byte)) (m : gmap string file)
    : gmap string file :=
  foldl (fun m save => <[fst save := Bytes (snd save)]> m) m saves.

(** The naming policy of streaming mode in the words of the specification:
    the images of the parts are numbered from [k] in the order of the parts,
    and a part without an image does not advance the number. *)
Fixpoint stream_saves `{Env} (prefix : string) (k : nat) (ps : list Part)
    : list (string * list byte) :=
  match ps with
  | [] => []
  | part :: rest =>
      match image_of part with
      | Some (d, ext) =>
          (prefix +:+ "_" +:+ str k +:+ ext, d) :: stream_saves prefix (S k) rest
      | None => stream_saves prefix k rest
      end
  end.

(** The naming policy of basic mode in the words of the specification: an
    image is named after the reading [c] of the clock and the position [i]
    of its part in the parts sequence, which counts every part. *)
Fixpoint basic_saves `{Env} (prefix : string) (c i : nat) (ps : list Part)
    : list (string * list byte) :=
  match ps with
  | [] => []
  | part :: rest =>
      match image_of part with
      | Some (d, ext) =>
          (prefix +:+ "_" +:+ now c +:+ "_" +:+ str i +:+ ext, d)
            :: basic_saves prefix (S c) (S i) rest
      | None => basic_saves prefix c (S i) rest
      end
  end.

(** The same over several parts sequences: the positions start again at 0
    in each sequence, the clock goes on. *)
Fixpoint basic_saves_all `{Env} (prefix : string) (c : nat) (pss : list (list Part))
    : list (string * list byte) :=
  match pss with
  | [] => []
  | ps :: rest =>
      basic_saves prefix c 0 ps
        ++ basic_saves_all prefix (c + length (basic_saves prefix c 0 ps)) rest
  end.

(** The parts the streaming loop reads in a chunk: those of the first
    candidate. *)
Definition stream_parts (chunk : Response) : list Part :=
  match candidates chunk with
  | Given (c0 :: _) =>
      match content c0 with
      | Given ct => match parts ct with Given ps => ps | _ => [] end
      | _ => []
      end
  | _ => []
  end.

(** No image of the part has [None] as its mime type. *)
Definition mime_known (part : Part) : bool :=
  match inline_data part with
  | Given blob =>
      match data blob, mime_type blob with
      | Given (_ :: _), PyNone => false
      | _, _ => true
      end
  | _ => true
  end.

(** A part that has the attributes the streaming loop reads. *)
Definition stream_part_ok (part : Part) : bool :=
  match inline_data part with
  | Missing => false
  | PyNone => true
  | Given blob =>
      match data blob with
      | Missing => false
      | _ => mime_known part
      end
  end.

(** A chunk that has the attributes the streaming loop reads and at least
    one candidate when it has a list of candidates. *)
Definition stream_chunk_ok (chunk : Response) : bool :=
  match candidates chunk with
  | Missing => false
  | PyNone => true
  | Given [] => false
  | Given (c0 :: _) =>
      match content c0 with
      | Missing => false
      | PyNone => true
      | Given ct =>
          match parts ct with
          | Missing => false
          | PyNone => true
          | Given ps => forallb stream_part_ok ps
          end
      end
  end.

(** A parts attribute that [extract_and_save_images] can walk. *)
Definition parts_ok (a : attr (list Part)) : bool :=
  match a with
  | Missing => true
  | PyNone => false
  | Given ps => forallb mime_known ps
  end.

(** A response that [extract_and_save_images] walks without an exception. *)
Definition extract_ok (r : Response) : bool :=
  match candidates r with
  | Given (c :: cs) =>
      forallb (fun candidate =>
                 match content candidate with
                 | Given ct => parts_ok (parts ct)
                 | _ => true
                 end) (c :: cs)
  | _ => parts_ok (direct_parts r)
  end.

(** * Sample inputs *)

(** A fixed clock reading, a small extension table, a decoder that accepts
    data starting with the PNG or JPEG signature byte, and a service whose
    streamed and text answers are given. *)

(** A few entries of the table of [mimetypes]. *)
Definition sample_table (mime : string) : option string :=
  if String.eqb mime "image/png" then Some ".png"
  else if String.eqb mime "image/jpeg" then Some ".jpg"
  else if String.eqb mime "image/gif" then Some ".gif"
  else None.

(** A decoder that looks at the first byte only. *)
Definition sample_decoder (d : list byte) : option (nat * nat) :=
  match d with
  | x89 :: _ => Some (1024, 1024)
  | xff :: _ => Some (640, 480)
  | _ => None
  end.

(** The environment built from the answers of the service.  The sample
    answers are [verbatim] text, so the parser of the environment is never
    asked; it returns a frame without rows. *)
Definition sample_env (streams : nat -> string -> stream) (answer : outcome (option string)) : Env :=
  mkEnv (fun _ => "20250101_120000") sample_table sample_decoder
        streams (fun _ _ => Ret None) (fun _ _ => answer) (fun _ _ => Ret []).

(** An empty working directory, nothing requested or printed yet. *)
Definition empty_world : world := mkWorld ∅ 0 0 [].

(** The first bytes of a PNG file. *)
Definition png : list byte := [x89; x50; x4e; x47].

(** A part with image data only, and a part with text only. *)
Definition image_part (mime : attr string) : Part :=
  mkPart PyNone (Given (mkBlob (Given png) mime)).

Definition text_part (s : string) : Part := mkPart (Given s) PyNone.

(** A response in the candidates shape with one candidate. *)
Definition single (ps : attr (list Part)) : Response :=
  mkResponse (Given [mkCandidate (Given (mkContent ps))]) PyNone.

(** A stream of three chunks (text and a JPEG, a chunk without parts, an
    image without a mime type attribute) that ends with a service error. *)
Definition failing_stream : stream :=
  mkStream [single (Given [text_part "Here is your meme"; image_part (Given "image/jpeg")]);
            single PyNone;
            single (Given [image_part Missing])]
           (Some (ServiceError "quota exceeded")).

(** The service that answers every request with [failing_stream]. *)
Definition failing_env : Env := sample_env (fun _ _ => failing_stream) (Ret None).

(** The world the loop over [failing_stream] leaves. *)
Definition failing_world : world :=
  mkWorld (<["stream_1.png" := Bytes png]> (<["stream_0.jpg" := Bytes png]> ∅)) 0 1
    [PromptEcho "a meme"; StartingStream; Dot; TextEcho "Here is your meme";
     FileSaved "stream_0.jpg"; ImageGenerated 1024 1024; DisplayImage png;
     Dot; Dot; FileSaved "stream_1.png"; ImageGenerated 1024 1024; DisplayImage png].

(** A part with both text and a PNG image. *)
Definition both_part : Part :=
  mkPart (Given "hello") (Given (mkBlob (Given png) (Given "image/png"))).

(** A stream whose first chunk has an empty candidates list and whose
    second chunk carries an image. *)
Definition empty_candidates_stream : stream :=
  mkStream [mkResponse (Given []) PyNone; single (Given [image_part (Given "image/png")])]
           None.

(** The service that answers every request with [empty_candidates_stream]. *)
Definition empty_candidates_env : Env :=
  sample_env (fun _ _ => empty_candidates_stream) (Ret None).

(** One marketing idea. *)
Definition sample_row : list cell :=
  [Str "Drake Hotline Bling"; Str "Old way vs new way"; Str "Compliance automation";
   Str "Audit in minutes"; Str "Book a demo"; Str "Compliance officers";
   Str "LinkedIn"; Str "Productivity"].

(** Two artifacts whose image files are in the working directory. *)
Definition exported_items : list artifact :=
  [artifact_of 0 "meme_0_0.jpg" sample_row; artifact_of 3 "meme_3_0.jpg" sample_row].

(** A working directory that holds the two image files. *)
Definition exported_world : world :=
  mkWorld (<["meme_3_0.jpg" := Bytes png]> (<["meme_0_0.jpg" := Bytes png]> ∅)) 0 2 [].

(** The session after the memes of rows 0 and 3 were generated. *)
Definition exported_session : session_state :=
  mkSession None (Some [sample_row; sample_row; sample_row; sample_row]) (Some exported_items).






(** A stream of three chunks without parts: no candidates, a candidate
    without content, content without parts. *)
Definition idle_stream : stream :=
  mkStream [mkResponse PyNone PyNone;
            mkResponse (Given [mkCandidate PyNone]) PyNone;
            single PyNone]
           None.

(** The service that answers every request with [idle_stream]. *)
Definition idle_env : Env := sample_env (fun _ _ => idle_stream) (Ret None).

(** A frame of two rows, the options of its rows 1 and 0, and the session
    that holds the frame. *)
Definition two_rows : DataFrame := [sample_row; sample_row].

Definition picked : list string :=
  ["Row 1: Drake Hotline Bling"; "Row 0: Drake Hotline Bling"].

Definition meme_session : session_state := mkSession None (Some two_rows) None.

(** A part with text and a PNG image whose [mime_type] is [None]. *)
Definition untyped_part : Part :=
  mkPart (Given "hello") (Given (mkBlob (Given png) PyNone)).

(** A response with one candidate whose parts are a text, a JPEG image and
    an image without a mime type attribute. *)
Definition mixed_response : Response :=
  single (Given [text_part "Here is your meme"; image_part (Given "image/jpeg");
                 image_part Missing]).

(** * Properties *)

(** ** Running monadic code *)

Lemma bind_ret {L A B} (m : M L A) (k : A -> M L B) s a s' :
  m s = (Ret a, s') -> bind m k s = k a s'.
Proof. intros Hm. unfold bind. now rewrite Hm. Qed.

Lemma bind_raise {L A B} (m : M L A) (k : A -> M L B) s e s' :
  m s = (Raise e, s') -> bind m k s = (Raise e, s').
Proof. intros Hm. unfold bind. now rewrite Hm. Qed.

(** One statement that returns: the goal moves to the rest of the body. *)
Ltac step := erewrite bind_ret by reflexivity.

Lemma preserves_ret {L A} (P : frame L -> Prop) (a : A) : preserves P (ret a).
Proof. intros s Hs. exact Hs. Qed.

Lemma preserves_raise {L A} (P : frame L -> Prop) e : preserves P (@raise L A e).
Proof. intros s Hs. exact Hs. Qed.

Lemma preserves_bind {L A B} (P : frame L -> Prop) (m : M L A) (k : A -> M L B) :
  preserves P m -> (forall a, preserves P (k a)) -> preserves P (bind m k).
Proof.
  intros Hm Hk s Hs. unfold bind. specialize (Hm s Hs).
  destruct (m s) as [[a|e] s1]; simpl in *.
  - now apply Hk.
  - exact Hm.
Qed.

Lemma preserves_try {L A} (P : frame L -> Prop) (m : M L A) h :
  preserves P m -> (forall e, preserves P (h e)) -> preserves P (try_except m h).
Proof.
  intros Hm Hh s Hs. unfold try_except. specialize (Hm s Hs).
  destruct (m s) as [[a|e] s1]; simpl in *.
  - exact Hm.
  - now apply Hh.
Qed.

Lemma preserves_for_each {L A} (P : frame L -> Prop) (xs : list A) body :
  (forall x, preserves P (body x)) -> preserves P (for_each xs body).
Proof.
  intros Hbody. induction xs as [|x xs IH]; simpl.
  - apply preserves_ret.
  - apply preserves_bind; [apply Hbody | intros _; exact IH].
Qed.

Lemma preserves_getattr {L A} (P : frame L -> Prop) (a : attr A) :
  preserves P (getattr a).
Proof. destruct a; intros s Hs; exact Hs. Qed.

Lemma preserves_emit {L} (P : frame L -> Prop) ev :
  (forall l w, P (mkFrame l w) ->
     P (mkFrame l (mkWorld (fs w) (clock w) (requests w) (log w ++ [ev])))) ->
  preserves P (emit ev).
Proof. intros HP [l w] Hs. simpl. now apply HP. Qed.

(** ** The streaming request *)

(** The files already written stay in the working directory when another
    file is written. *)
Lemma lookup_bytes_insert (m : gmap string file) name d f :
  (exists d', m !! f = Some (Bytes d')) ->
  exists d', <[name := Bytes d]> m !! f = Some (Bytes d').
Proof.
  intros [d' Hd']. destruct (decide (name = f)) as [->|Hne].
  - exists d. apply lookup_insert_eq.
  - exists d'. now rewrite lookup_insert_ne.
Qed.

Lemma extension_derived `{Env} mime :
  derived_extension (match guess_extension mime with
                     | Some (String c s) => String c s
                     | _ => ".png"
                     end).
Proof.
  destruct (guess_extension mime) as [[|c s]|] eqn:Hguess;
    [now left|right; now exists mime|now left].
Qed.

Lemma stream_inv_save `{Env} save_prefix l w ext d lg :
  derived_extension ext ->
  stream_inv save_prefix (mkFrame l w) ->
  stream_inv save_prefix
    (mkFrame (mkLocals (saved_files l ++ [save_prefix +:+ "_" +:+ str (file_index l) +:+ ext])
                       (S (file_index l)))
             (mkWorld (<[save_prefix +:+ "_" +:+ str (file_index l) +:+ ext := Bytes d]> (fs w))
                      (clock w) (requests w) lg)).
Proof.
  intros Hext (Hidx & Hname & Hdisk). unfold stream_inv in *. simpl in *.
  split; [|split].
  - rewrite length_app. simpl. lia.
  - intros k f Hk. apply lookup_app_Some in Hk as [Hk|[Hlen Hk]].
    + now apply Hname.
    + apply list_lookup_singleton_Some in Hk as [Hk0 <-].
      exists ext. replace k with (file_index l) by lia. now split.
  - intros f Hf. apply elem_of_app in Hf as [Hf|Hf].
    + apply lookup_bytes_insert. now apply Hdisk.
    + apply list_elem_of_singleton in Hf as ->. exists d. apply lookup_insert_eq.
Qed.

Lemma stream_part_inv `{Env} save_prefix part :
  preserves (stream_inv save_prefix) (stream_part save_prefix part).
Proof.
  intros [l w] Hinv. unfold stream_part.
  destruct part as [t idata]. simpl.
  assert (Hecho : exists lg,
    (match t with
     | Given (String c s) => emit (L:=stream_locals) (TextEcho (first100 (String c s)))
     | _ => ret tt
     end) (mkFrame l w) = (Ret tt, mkFrame l (mkWorld (fs w) (clock w) (requests w) lg))).
  { destruct w. destruct t as [| |[|c s]]; eexists; reflexivity. }
  destruct Hecho as [lg Hecho]. rewrite (bind_ret _ _ _ _ _ Hecho). clear Hecho.
  assert (Hinv1 : stream_inv save_prefix
            (mkFrame l (mkWorld (fs w) (clock w) (requests w) lg))) by exact Hinv.
  clear Hinv. revert Hinv1. generalize (mkWorld (fs w) (clock w) (requests w) lg).
  clear w lg. intros w Hinv.
  destruct idata as [| |[d m]]; cbn; try exact Hinv.
  destruct d as [| |[|b bs]]; cbn; try exact Hinv.
  unfold extension.
  destruct (mime_type_or_default {| data := Given (b :: bs); mime_type := m |}) as [mime|];
    cbn; try exact Hinv.
  unfold try_except, bind, Image_open. cbn.
  destruct (image_open (b :: bs)) as [[wd ht]|]; cbn;
    (apply stream_inv_save; [apply extension_derived|exact Hinv]).
Qed.

Lemma stream_chunk_inv `{Env} save_prefix chunk :
  preserves (stream_inv save_prefix) (stream_chunk save_prefix chunk).
Proof.
  unfold stream_chunk.
  apply preserves_bind; [apply preserves_emit; intros; assumption|intros _].
  apply preserves_bind; [apply preserves_getattr|intros [cs|]]; [|apply preserves_ret].
  apply preserves_bind; [destruct cs; [apply preserves_raise|apply preserves_ret]|intros c0].
  apply preserves_bind; [apply preserves_getattr|intros [ct|]]; [|apply preserves_ret].
  apply preserves_bind; [apply preserves_getattr|intros [ps|]]; [|apply preserves_ret].
  apply preserves_for_each. intros part. apply stream_part_inv.
Qed.

Lemma for_stream_inv `{Env} save_prefix strm :
  preserves (stream_inv save_prefix) (for_stream strm (stream_chunk save_prefix)).
Proof.
  unfold for_stream. apply preserves_bind.
  - apply preserves_for_each. intros chunk. apply stream_chunk_inv.
  - intros _. destruct (failure strm); [apply preserves_raise|apply preserves_ret].
Qed.

(** The request as a whole: whatever the loop over the stream does, the
    function returns the accumulator the loop left. *)
Lemma generate_image_streaming_run `{Env} {L} prompt save_prefix (s : frame L) :
  let r := for_stream (generate_content_stream (requests (world_of s)) prompt)
             (stream_chunk save_prefix)
             (mkFrame (mkLocals [] 0) (started (world_of s) prompt)) in
  generate_image_streaming prompt save_prefix s
  = (Ret (saved_files (locals (snd r))), mkFrame (locals s) (finished (fst r) (snd r))).
Proof.
  destruct s as [l w]. unfold generate_image_streaming, call, finished. cbn.
  unfold try_except.
  do 4 step. cbn.
  fold (started w prompt).
  unfold bind at 1.
  destruct (for_stream _ _ _) as [[[]|e] [l2 w2]]; reflexivity.
Qed.

(** The request never raises, names its k-th file with index k and leaves
    every file it returns in the working directory. *)
Lemma generate_image_streaming_result `{Env} {L} prompt save_prefix (s : frame L) :
  exists files w',
    generate_image_streaming prompt save_prefix s = (Ret files, mkFrame (locals s) w') /\
    (forall k f, files !! k = Some f ->
       exists ext, derived_extension ext /\ f = save_prefix +:+ "_" +:+ str k +:+ ext) /\
    (forall f, f ∈ files -> exists d, fs w' !! f = Some (Bytes d)).
Proof.
  rewrite generate_image_streaming_run. cbv zeta.
  pose proof (for_stream_inv save_prefix
                (generate_content_stream (requests (world_of s)) prompt)
                (mkFrame (mkLocals [] 0) (started (world_of s) prompt))) as Hinv.
  destruct (for_stream _ _ _) as [r s2]. simpl in *.
  destruct Hinv as (_ & Hname & Hdisk).
  { split; [reflexivity|]. split.
    - intros k f Hk. simpl in Hk. rewrite lookup_nil in Hk. discriminate.
    - intros f Hf. simpl in Hf. inversion Hf. }
  eexists _, _. split; [reflexivity|]. split; assumption.
Qed.

(** ** Loops that count positions *)

Lemma preserves_for_enumerate {L A} (P : frame L -> Prop) (all : list A) body :
  (forall i x, all !! i = Some x -> preserves P (body i x)) ->
  forall xs start, (forall j x, xs !! j = Some x -> all !! (start + j) = Some x) ->
  preserves P (for_enumerate start xs body).
Proof.
  intros Hbody xs. induction xs as [|x xs IH]; intros start Hxs; simpl.
  - apply preserves_ret.
  - apply preserves_bind.
    + apply Hbody. specialize (Hxs 0 x eq_refl). now rewrite Nat.add_0_r in Hxs.
    + intros _. apply IH. intros j y Hj. specialize (Hxs (S j) y Hj).
      now replace (S start + j) with (start + S j) by lia.
Qed.

(** ** The naming of the files *)

Lemma write_all_app saves1 saves2 m :
  write_all (saves1 ++ saves2) m = write_all saves2 (write_all saves1 m).
Proof. unfold write_all. apply foldl_app. Qed.

Lemma stream_saves_app `{Env} prefix ps1 : forall k ps2,
  stream_saves prefix k (ps1 ++ ps2)
  = stream_saves prefix k ps1
      ++ stream_saves prefix (k + length (stream_saves prefix k ps1)) ps2.
Proof.
  induction ps1 as [|part ps1 IH]; intros k ps2; simpl.
  - now rewrite Nat.add_0_r.
  - destruct (image_of part) as [[d ext]|]; simpl.
    + rewrite IH. now rewrite Nat.add_succ_r.
    + apply IH.
Qed.

(** A part with an image in the streaming loop: the image is written under
    the current index, the name is appended and the index advances. *)
Lemma stream_part_image `{Env} prefix part d ext files k w :
  image_of part = Some (d, ext) ->
  exists lg,
    stream_part prefix part (mkFrame (mkLocals files k) w)
    = (Ret tt,
       mkFrame (mkLocals (files ++ [prefix +:+ "_" +:+ str k +:+ ext]) (S k))
         (mkWorld (<[prefix +:+ "_" +:+ str k +:+ ext := Bytes d]> (fs w))
            (clock w) (requests w) lg)).
Proof.
  unfold image_of. destruct part as [t idata]. cbn [inline_data].
  destruct idata as [| |[dt m]]; try discriminate. cbn [data].
  destruct dt as [| |[|b bs]]; try discriminate.
  unfold mime_type_or_default. cbn [mime_type].
  destruct m as [| |mime]; try discriminate; intros [= <- <-];
    unfold stream_part, extension, mime_type_or_default, try_except, bind, Image_open;
    cbn; destruct t as [| |[|c t]]; cbn;
    destruct (image_open (b :: bs)) as [[wd ht]|]; cbn; eexists; reflexivity.
Qed.

(** A part without an image leaves the list, the index and the files as
    they were. *)
Lemma stream_part_no_image `{Env} prefix part l w :
  stream_part_ok part = true ->
  image_of part = None ->
  exists lg,
    stream_part prefix part (mkFrame l w)
    = (Ret tt, mkFrame l (mkWorld (fs w) (clock w) (requests w) lg)).
Proof.
  unfold stream_part_ok, mime_known, image_of. destruct part as [t idata].
  destruct w as [files0 clock0 requests0 log0]. cbn [inline_data].
  destruct idata as [| |[dt m]]; try discriminate.
  - intros _ _. unfold stream_part, bind. cbn.
    destruct t as [| |[|c t]]; cbn; eexists; reflexivity.
  - cbn [data mime_type]. destruct dt as [| |[|b bs]]; try discriminate.
    + intros _ _. unfold stream_part, bind. cbn.
      destruct t as [| |[|c t]]; cbn; eexists; reflexivity.
    + intros _ _. unfold stream_part, bind. cbn.
      destruct t as [| |[|c t]]; cbn; eexists; reflexivity.
    + unfold mime_type_or_default. cbn [mime_type].
      destruct m as [| |mime]; discriminate.
Qed.

Lemma stream_parts_run `{Env} prefix ps : forall files k w,
  forallb stream_part_ok ps = true ->
  exists lg,
    for_each ps (stream_part prefix) (mkFrame (mkLocals files k) w)
    = (Ret tt,
       mkFrame (mkLocals (files ++ map fst (stream_saves prefix k ps))
                  (k + length (stream_saves prefix k ps)))
         (mkWorld (write_all (stream_saves prefix k ps) (fs w)) (clock w) (requests w) lg)).
Proof.
  induction ps as [|part ps IH]; intros files k w Hok; simpl.
  - exists (log w). rewrite app_nil_r, Nat.add_0_r. now destruct w.
  - simpl in Hok. apply andb_prop in Hok as [Hpart Hrest].
    destruct (image_of part) as [[d ext]|] eqn:Himg.
    + destruct (stream_part_image prefix part d ext files k w Himg) as [lg1 Hrun].
      rewrite (bind_ret _ _ _ _ _ Hrun).
      destruct (IH (files ++ [prefix +:+ "_" +:+ str k +:+ ext]) (S k)
                  (mkWorld (<[prefix +:+ "_" +:+ str k +:+ ext := Bytes d]> (fs w))
                     (clock w) (requests w) lg1) Hrest) as [lg Hloop].
      exists lg. rewrite Hloop. cbn [fs clock requests map fst length write_all foldl snd].
      rewrite <- app_assoc, Nat.add_succ_r. reflexivity.
    + destruct (stream_part_no_image prefix part (mkLocals files k) w Hpart Himg)
        as [lg1 Hrun].
      rewrite (bind_ret _ _ _ _ _ Hrun).
      destruct (IH files k (mkWorld (fs w) (clock w) (requests w) lg1) Hrest) as [lg Hloop].
      exists lg. rewrite Hloop. reflexivity.
Qed.

Lemma stream_chunk_run `{Env} prefix chunk files k w :
  stream_chunk_ok chunk = true ->
  exists lg,
    stream_chunk prefix chunk (mkFrame (mkLocals files k) w)
    = (Ret tt,
       mkFrame (mkLocals (files ++ map fst (stream_saves prefix k (stream_parts chunk)))
                  (k + length (stream_saves prefix k (stream_parts chunk))))
         (mkWorld (write_all (stream_saves prefix k (stream_parts chunk)) (fs w))
            (clock w) (requests w) lg)).
Proof.
  unfold stream_chunk_ok, stream_parts, stream_chunk. intros Hok. step.
  destruct (candidates chunk) as [| |[|c0 cs]]; try discriminate.
  - cbn. rewrite app_nil_r, Nat.add_0_r. eexists. reflexivity.
  - cbn. destruct (content c0) as [| |ct]; try discriminate.
    + cbn. rewrite app_nil_r, Nat.add_0_r. eexists. reflexivity.
    + cbn. destruct (parts ct) as [| |ps]; try discriminate.
      * cbn. rewrite app_nil_r, Nat.add_0_r. eexists. reflexivity.
      * cbn.
        destruct (stream_parts_run prefix ps files k
                    (mkWorld (fs w) (clock w) (requests w) (log w ++ [Dot])) Hok)
          as [lg Hrun].
        exists lg. exact Hrun.
Qed.

Lemma stream_chunks_run `{Env} prefix cs : forall files k w,
  forallb stream_chunk_ok cs = true ->
  exists lg,
    for_each cs (stream_chunk prefix) (mkFrame (mkLocals files k) w)
    = (Ret tt,
       mkFrame (mkLocals (files ++ map fst (stream_saves prefix k (concat (map stream_parts cs))))
                  (k + length (stream_saves prefix k (concat (map stream_parts cs)))))
         (mkWorld (write_all (stream_saves prefix k (concat (map stream_parts cs))) (fs w))
            (clock w) (requests w) lg)).
Proof.
  induction cs as [|chunk cs IH]; intros files k w Hok; simpl.
  - exists (log w). rewrite app_nil_r, Nat.add_0_r. now destruct w.
  - simpl in Hok. apply andb_prop in Hok as [Hchunk Hrest].
    destruct (stream_chunk_run prefix chunk files k w Hchunk) as [lg1 Hrun].
    rewrite (bind_ret _ _ _ _ _ Hrun).
    destruct (IH (files ++ map fst (stream_saves prefix k (stream_parts chunk)))
                (k + length (stream_saves prefix k (stream_parts chunk)))
                (mkWorld (write_all (stream_saves prefix k (stream_parts chunk)) (fs w))
                   (clock w) (requests w) lg1) Hrest) as [lg Hloop].
    exists lg. rewrite Hloop. cbn [fs clock requests].
    rewrite stream_saves_app, map_app, length_app, write_all_app, <- app_assoc, Nat.add_assoc.
    reflexivity.
Qed.

(** The streaming request over a stream whose chunks are all read without
    an exception, however the stream ends. *)
Lemma generate_image_streaming_saves `{Env} {L} prompt prefix (s : frame L) cs fail :
  generate_content_stream (requests (world_of s)) prompt = mkStream cs fail ->
  forallb stream_chunk_ok cs = true ->
  exists lg,
    generate_image_streaming prompt prefix s
    = (Ret (map fst (stream_saves prefix 0 (concat (map stream_parts cs)))),
       mkFrame (locals s)
         (mkWorld (write_all (stream_saves prefix 0 (concat (map stream_parts cs)))
                     (fs (world_of s)))
            (clock (world_of s)) (S (requests (world_of s))) lg)).
Proof.
  intros Hstream Hok. rewrite generate_image_streaming_run. cbv zeta.
  rewrite Hstream. unfold for_stream. cbn [chunks failure].
  destruct (stream_chunks_run prefix cs [] 0 (started (world_of s) prompt) Hok)
    as [lg Hloop].
  rewrite (bind_ret _ _ _ _ _ Hloop).
  destruct fail as [e|]; cbn; eexists; reflexivity.
Qed.

(** A part with an image in basic mode: the clock is read, the image is
    written under the reading and the position of the part, and the name is
    appended. *)
Lemma extract_part_image `{Env} prefix i part d ext files w :
  image_of part = Some (d, ext) ->
  exists lg,
    extract_part prefix i part (mkFrame files w)
    = (Ret tt,
       mkFrame (files ++ [prefix +:+ "_" +:+ now (clock w) +:+ "_" +:+ str i +:+ ext])
         (mkWorld (<[prefix +:+ "_" +:+ now (clock w) +:+ "_" +:+ str i +:+ ext := Bytes d]>
                     (fs w))
            (S (clock w)) (requests w) lg)).
Proof.
  unfold image_of, extract_part.
  destruct (inline_data part) as [| |blob]; try discriminate.
  destruct (data blob) as [| |[|b bs]]; try discriminate.
  unfold extension.
  destruct (mime_type_or_default blob) as [mime|]; try discriminate.
  intros [= <- <-]. cbn. eexists. reflexivity.
Qed.

Lemma extract_part_no_image `{Env} prefix i part files w :
  mime_known part = true ->
  image_of part = None ->
  extract_part prefix i part (mkFrame files w) = (Ret tt, mkFrame files w).
Proof.
  unfold mime_known, image_of, extract_part, mime_type_or_default.
  destruct (inline_data part) as [| |blob]; try reflexivity.
  destruct (data blob) as [| |[|b bs]]; try reflexivity.
  destruct (mime_type blob) as [| |mime]; discriminate.
Qed.

Lemma extract_parts_run `{Env} prefix ps : forall i files w,
  forallb mime_known ps = true ->
  exists lg,
    for_enumerate i ps (extract_part prefix) (mkFrame files w)
    = (Ret tt,
       mkFrame (files ++ map fst (basic_saves prefix (clock w) i ps))
         (mkWorld (write_all (basic_saves prefix (clock w) i ps) (fs w))
            (clock w + length (basic_saves prefix (clock w) i ps)) (requests w) lg)).
Proof.
  induction ps as [|part ps IH]; intros i files w Hok; simpl.
  - exists (log w). rewrite app_nil_r, Nat.add_0_r. now destruct w.
  - simpl in Hok. apply andb_prop in Hok as [Hpart Hrest].
    destruct (image_of part) as [[d ext]|] eqn:Himg.
    + destruct (extract_part_image prefix i part d ext files w Himg) as [lg1 Hrun].
      rewrite (bind_ret _ _ _ _ _ Hrun).
      destruct (IH (S i) (files ++ [prefix +:+ "_" +:+ now (clock w) +:+ "_" +:+ str i +:+ ext])
                  (mkWorld (<[prefix +:+ "_" +:+ now (clock w) +:+ "_" +:+ str i +:+ ext
                              := Bytes d]> (fs w))
                     (S (clock w)) (requests w) lg1) Hrest) as [lg Hloop].
      exists lg. rewrite Hloop. cbn [fs clock requests map fst length write_all foldl snd].
      rewrite <- app_assoc, Nat.add_succ_r. reflexivity.
    + rewrite (bind_ret _ _ _ _ _ (extract_part_no_image prefix i part files w Hpart Himg)).
      now apply IH.
Qed.

(** The walk over one parts attribute. *)
Lemma extract_attr_run `{Env} prefix (a : attr (list Part)) files w :
  parts_ok a = true ->
  exists lg,
    (if hasattr a
     then (v <- getattr a ;; ps <- iter v ;; for_enumerate 0 ps (extract_part prefix))
     else ret tt) (mkFrame files w)
    = (Ret tt,
       mkFrame (files ++ map fst (basic_saves prefix (clock w) 0
                                    (match a with Given ps => ps | _ => [] end)))
         (mkWorld (write_all (basic_saves prefix (clock w) 0
                                (match a with Given ps => ps | _ => [] end)) (fs w))
            (clock w + length (basic_saves prefix (clock w) 0
                                 (match a with Given ps => ps | _ => [] end)))
            (requests w) lg)).
Proof.
  destruct a as [| |ps]; try discriminate; intros Hok.
  - exists (log w). cbn. rewrite app_nil_r, Nat.add_0_r. now destruct w.
  - cbn [hasattr]. step. step. now apply extract_parts_run.
Qed.

(** The loop over the candidates. *)
Lemma extract_candidates_run `{Env} prefix cands : forall files w,
  forallb (fun candidate =>
             match content candidate with
             | Given ct => parts_ok (parts ct)
             | _ => true
             end) cands = true ->
  let pss := omap (fun candidate =>
                     match content candidate with
                     | Given ct => match parts ct with Given ps => Some ps | _ => None end
                     | _ => None
                     end) cands in
  exists lg,
    for_each cands
      (fun candidate =>
         match content candidate with
         | Given ct =>
             if hasattr (parts ct)
             then (v <- getattr (parts ct) ;;
                   ps <- iter v ;;
                   for_enumerate 0 ps (extract_part prefix))
             else ret tt
         | _ => ret tt
         end) (mkFrame files w)
    = (Ret tt,
       mkFrame (files ++ map fst (basic_saves_all prefix (clock w) pss))
         (mkWorld (write_all (basic_saves_all prefix (clock w) pss) (fs w))
            (clock w + length (basic_saves_all prefix (clock w) pss)) (requests w) lg)).
Proof.
  induction cands as [|candidate cands IH]; intros files w Hok; cbv zeta; simpl.
  - exists (log w). rewrite app_nil_r, Nat.add_0_r. now destruct w.
  - simpl in Hok. apply andb_prop in Hok as [Hcand Hrest].
    destruct (content candidate) as [| |ct].
    + step. apply (IH files w Hrest).
    + step. apply (IH files w Hrest).
    + destruct (extract_attr_run prefix (parts ct) files w Hcand) as [lg1 Hrun].
      rewrite (bind_ret _ _ _ _ _ Hrun).
      destruct (parts ct) as [| |ps]; try discriminate.
      * cbn in Hrun |- *. rewrite app_nil_r, Nat.add_0_r.
        destruct (IH files (mkWorld (fs w) (clock w) (requests w) lg1) Hrest) as [lg Hloop].
        exists lg. exact Hloop.
      * destruct (IH (files ++ map fst (basic_saves prefix (clock w) 0 ps))
                    (mkWorld (write_all (basic_saves prefix (clock w) 0 ps) (fs w))
                       (clock w + length (basic_saves prefix (clock w) 0 ps))
                       (requests w) lg1) Hrest) as [lg Hloop].
        exists lg. rewrite Hloop. cbn [fs clock requests basic_saves_all].
        rewrite map_app, length_app, write_all_app, <- app_assoc, Nat.add_assoc.
        reflexivity.
Qed.

(** The helper over a response that it walks without an exception. *)
Lemma extract_and_save_images_saves `{Env} {L} prefix r (s : frame L) :
  extract_ok r = true ->
  exists lg,
    extract_and_save_images (Some r) prefix s
    = (Ret (map fst (basic_saves_all prefix (clock (world_of s)) (parts_sequences r))),
       mkFrame (locals s)
         (mkWorld (write_all (basic_saves_all prefix (clock (world_of s)) (parts_sequences r))
                     (fs (world_of s)))
            (clock (world_of s)
             + length (basic_saves_all prefix (clock (world_of s)) (parts_sequences r)))
            (requests (world_of s)) lg)).
Proof.
  unfold extract_ok, parts_sequences, extract_and_save_images, call. intros Hok.
  destruct (candidates r) as [| |[|c cs]].
  1-3: destruct (extract_attr_run prefix (direct_parts r) [] (world_of s) Hok) as [lg Hrun];
       rewrite (bind_ret _ _ _ _ _ Hrun); cbn;
       destruct (direct_parts r) as [| |ps]; cbn; rewrite ?app_nil_r, ?Nat.add_0_r;
       eexists; reflexivity.
  destruct (extract_candidates_run prefix (c :: cs) [] (world_of s) Hok) as [lg Hrun].
  rewrite (bind_ret _ _ _ _ _ Hrun). cbn. eexists. reflexivity.
Qed.

(** ** Response unwrapping and naming *)

(** C1, at the input that breaks it: a candidate whose content holds
    [parts = None].  The guard is [hasattr(candidate.content, 'parts')]
    alone, the attribute exists, and [enumerate(None)] raises [TypeError]
    out of [extract_and_save_images]; nothing was saved. *)
Theorem extract_and_save_images_parts_none `{Env} {L} prefix (s : frame L) dp :
  extract_and_save_images
    (Some (mkResponse (Given [mkCandidate (Given (mkContent PyNone))]) dp)) prefix s
  = (Raise TypeError, s).
Proof. destruct s as [l w]. reflexivity. Qed.

(** C3. When the service raises after the chunks [cs] were consumed and K
    images were persisted, [generate_image_streaming] returns the
    accumulator of exactly those K paths instead of raising, the working
    directory is the one the loop left, and each of the K files is in it. *)
Theorem streaming_failure_returns_accumulator `{Env} {L} prompt save_prefix
    (s : frame L) cs e l w2 :
  generate_content_stream (requests (world_of s)) prompt = mkStream cs (Some e) ->
  for_each cs (stream_chunk save_prefix)
    (mkFrame (mkLocals [] 0) (started (world_of s) prompt)) = (Ret tt, mkFrame l w2) ->
  generate_image_streaming prompt save_prefix s
  = (Ret (saved_files l),
     mkFrame (locals s)
       (mkWorld (fs w2) (clock w2) (requests w2) (log w2 ++ [StreamingError e]))) /\
  length (saved_files l) = file_index l /\
  (forall f, f ∈ saved_files l -> exists d, fs w2 !! f = Some (Bytes d)).
Proof.
  intros Hstream Hloop.
  pose proof (preserves_for_each (stream_inv save_prefix) cs
                (stream_chunk save_prefix) (stream_chunk_inv save_prefix)
                (mkFrame (mkLocals [] 0) (started (world_of s) prompt))) as Hinv.
  rewrite Hloop in Hinv. simpl in Hinv.
  destruct Hinv as (Hidx & _ & Hdisk).
  { split; [reflexivity|]. split.
    - intros k f Hk. simpl in Hk. rewrite lookup_nil in Hk. discriminate.
    - intros f Hf. simpl in Hf. inversion Hf. }
  split; [|split; [now symmetry|exact Hdisk]].
  rewrite generate_image_streaming_run. cbv zeta.
  rewrite Hstream. unfold for_stream. simpl chunks. simpl failure.
  rewrite (bind_ret _ _ _ _ _ Hloop). reflexivity.
Qed.

(** C4. In streaming mode a call over a stream that is read without an
    exception returns exactly the names [{prefix}_{k}{ext}] of the images of
    the parts it read, k counting the images from 0 in the order of the
    parts across chunks, and each name holds the bytes of its image;
    parts and chunks without an image do not advance k.  In basic mode a
    call over a response that is walked without an exception returns exactly
    the names [{prefix}_{timestamp}_{i}{ext}] of the images, i being the
    position of the part in its parts sequence, which counts the parts
    without an image as well, and each name holds the bytes of its image.
    In every call, also one that raises later, a part with an image is
    saved under these names, and in streaming mode a part without an image
    leaves the index as it is; whatever the stream, the k-th name a
    streaming call returns is [{prefix}_{k}{ext}]. *)
Theorem naming_policies `{Env} {L} prefix (s : frame L) :
  (forall prompt cs fail,
     generate_content_stream (requests (world_of s)) prompt = mkStream cs fail ->
     forallb stream_chunk_ok cs = true ->
     exists lg,
       generate_image_streaming prompt prefix s
       = (Ret (map fst (stream_saves prefix 0 (concat (map stream_parts cs)))),
          mkFrame (locals s)
            (mkWorld (write_all (stream_saves prefix 0 (concat (map stream_parts cs)))
                        (fs (world_of s)))
               (clock (world_of s)) (S (requests (world_of s))) lg))) /\
  (forall r,
     extract_ok r = true ->
     exists lg,
       extract_and_save_images (Some r) prefix s
       = (Ret (map fst (basic_saves_all prefix (clock (world_of s)) (parts_sequences r))),
          mkFrame (locals s)
            (mkWorld (write_all (basic_saves_all prefix (clock (world_of s))
                                   (parts_sequences r))
                        (fs (world_of s)))
               (clock (world_of s)
                + length (basic_saves_all prefix (clock (world_of s)) (parts_sequences r)))
               (requests (world_of s)) lg))) /\
  (forall part d ext files k w,
     image_of part = Some (d, ext) ->
     exists lg,
       stream_part prefix part (mkFrame (mkLocals files k) w)
       = (Ret tt,
          mkFrame (mkLocals (files ++ [prefix +:+ "_" +:+ str k +:+ ext]) (S k))
            (mkWorld (<[prefix +:+ "_" +:+ str k +:+ ext := Bytes d]> (fs w))
               (clock w) (requests w) lg))) /\
  (forall part l w,
     stream_part_ok part = true ->
     image_of part = None ->
     exists lg,
       stream_part prefix part (mkFrame l w)
       = (Ret tt, mkFrame l (mkWorld (fs w) (clock w) (requests w) lg))) /\
  (forall part d ext i files w,
     image_of part = Some (d, ext) ->
     exists lg,
       extract_part prefix i part (mkFrame files w)
       = (Ret tt,
          mkFrame (files ++ [prefix +:+ "_" +:+ now (clock w) +:+ "_" +:+ str i +:+ ext])
            (mkWorld (<[prefix +:+ "_" +:+ now (clock w) +:+ "_" +:+ str i +:+ ext := Bytes d]>
                        (fs w))
               (S (clock w)) (requests w) lg))) /\
  (forall prompt, exists files w',
     generate_image_streaming prompt prefix s = (Ret files, mkFrame (locals s) w') /\
     forall k f, files !! k = Some f ->
       exists ext, derived_extension ext /\ f = prefix +:+ "_" +:+ str k +:+ ext).
Proof.
  split; [|split; [|split; [|split; [|split]]]].
  - intros prompt cs fail Hstream Hok.
    now apply generate_image_streaming_saves with fail.
  - intros r Hok. now apply extract_and_save_images_saves.
  - intros part d ext files k w Himg. now apply stream_part_image.
  - intros part l w Hok Himg. now apply stream_part_no_image.
  - intros part d ext i files w Himg. now apply extract_part_image.
  - intros prompt.
    destruct (generate_image_streaming_result prompt prefix s)
      as (files & w' & Hrun & Hname & _).
    exists files, w'. now split.
Qed.

(** C4 on [failing_stream], whose second chunk has no parts and whose first
    part is a text, and on [mixed_response], whose part 0 is a text. *)
Lemma naming_policies_witness :
  (exists lg,
     generate_image_streaming (H:=failing_env) (L:=unit) "a meme" "stream"
       (mkFrame tt empty_world)
     = (Ret ["stream_0.jpg"; "stream_1.png"],
        mkFrame tt
          (mkWorld (<["stream_1.png" := Bytes png]> (<["stream_0.jpg" := Bytes png]> ∅))
             0 1 lg))) /\
  (exists lg,
     extract_and_save_images (H:=failing_env) (L:=unit) (Some mixed_response) "basic"
       (mkFrame tt empty_world)
     = (Ret ["basic_20250101_120000_1.jpg"; "basic_20250101_120000_2.png"],
        mkFrame tt
          (mkWorld (<["basic_20250101_120000_2.png" := Bytes png]>
                      (<["basic_20250101_120000_1.jpg" := Bytes png]> ∅))
             2 0 lg))).
Proof.
  split.
  - apply (proj1 (naming_policies (H:=failing_env) (L:=unit) "stream"
                    (mkFrame tt empty_world))
             "a meme" (chunks failing_stream) (failure failing_stream));
      reflexivity.
  - apply (proj1 (proj2 (naming_policies (H:=failing_env) (L:=unit) "basic"
                           (mkFrame tt empty_world)))
             mixed_response).
    reflexivity.
Defined.

(** C5, with the input that breaks it.  For a part with non-empty text and
    non-empty inline data [process_part] displays the text and then handles
    the image (shown when it decodes, reported otherwise), whatever the mime
    type.  The streaming loop echoes the text and then saves the image when
    the mime type is a string or the attribute is missing; when [mime_type]
    holds [None] it echoes the text and then raises [AttributeError]: no
    image is saved. *)
Theorem text_then_image `{Env} save_prefix part c t b bs blob l w :
  text part = Given (String c t) ->
  inline_data part = Given blob ->
  data blob = Given (b :: bs) ->
  process_part (L:=unit) part (mkFrame tt w)
  = (Ret tt,
     mkFrame tt
       (mkWorld (fs w) (clock w) (requests w)
          (log w ++ DisplayMarkdown (String c t) ::
             match image_open (b :: bs) with
             | Some (wd, ht) => [ImageSize wd ht; DisplayImage (b :: bs)]
             | None => [CouldNotDisplay UnidentifiedImageError]
             end))) /\
  (forall mime,
     mime_type_or_default blob = Some mime ->
     let ext := match guess_extension mime with
                | Some (String c' e) => String c' e
                | _ => ".png"
                end in
     let filename := save_prefix +:+ "_" +:+ str (file_index l) +:+ ext in
     stream_part save_prefix part (mkFrame l w)
     = (Ret tt,
        mkFrame (mkLocals (saved_files l ++ [filename]) (S (file_index l)))
          (mkWorld (<[filename := Bytes (b :: bs)]> (fs w)) (clock w) (requests w)
             (log w ++ TextEcho (first100 (String c t)) :: FileSaved filename ::
                match image_open (b :: bs) with
                | Some (wd, ht) => [ImageGenerated wd ht; DisplayImage (b :: bs)]
                | None => []
                end)))) /\
  (mime_type blob = PyNone ->
   stream_part save_prefix part (mkFrame l w)
   = (Raise AttributeError,
      mkFrame l
        (mkWorld (fs w) (clock w) (requests w)
           (log w ++ [TextEcho (first100 (String c t))])))).
Proof.
  intros Htext Hblob Hdata. split; [|split].
  - unfold process_part. rewrite Htext, Hblob. cbn. rewrite Hdata. cbn.
    unfold try_except, bind, Image_open. cbn.
    destruct (image_open (b :: bs)) as [[wd ht]|]; cbn;
      rewrite <- ?app_assoc; reflexivity.
  - intros mime Hmime ext filename. subst ext filename.
    unfold stream_part. rewrite Htext, Hblob. cbn.
    rewrite Hdata. cbn. unfold extension. rewrite Hmime. cbn.
    unfold try_except, bind, Image_open. cbn.
    destruct (image_open (b :: bs)) as [[wd ht]|]; cbn;
      rewrite <- ?app_assoc; reflexivity.
  - intros Hnone.
    unfold stream_part. rewrite Htext, Hblob. cbn.
    rewrite Hdata. cbn. unfold extension, mime_type_or_default. rewrite Hnone.
    reflexivity.
Qed.

(** C7, at the input that breaks it: a chunk whose candidates list is
    empty.  [chunk.candidates[0]] raises [IndexError], the handler of the
    whole request catches it, and the stream is abandoned: the chunks after
    it are never consumed, whatever they hold. *)
Theorem empty_candidates_abandon_stream `{Env} {L} prompt save_prefix
    (s : frame L) dp rest fail :
  generate_content_stream (requests (world_of s)) prompt
  = mkStream (mkResponse (Given []) dp :: rest) fail ->
  generate_image_streaming prompt save_prefix s
  = (Ret [],
     mkFrame (locals s)
       (mkWorld (fs (world_of s)) (clock (world_of s)) (S (requests (world_of s)))
          (log (world_of s) ++
             [PromptEcho (first100 prompt); StartingStream; Dot;
              StreamingError IndexError]))).
Proof.
  intros Hstream. rewrite generate_image_streaming_run. cbv zeta.
  rewrite Hstream. destruct s as [l w]. cbn. unfold finished. cbn.
  rewrite <- !app_assoc. reflexivity.
Qed.

(** C8, at the input that breaks it: an image whose [mime_type] attribute
    holds [None].  [getattr] with a default returns the [None] that is
    there, [mimetypes.guess_extension(None)] raises [AttributeError], and
    the image is not saved, in the streaming loop and in basic mode
    alike. *)
Theorem mime_type_none_raises `{Env} prefix b bs l w :
  let part := mkPart PyNone (Given (mkBlob (Given (b :: bs)) PyNone)) in
  mime_type_or_default (mkBlob (Given (b :: bs)) PyNone) = None /\
  stream_part prefix part (mkFrame l w) = (Raise AttributeError, mkFrame l w) /\
  extract_and_save_images (L:=unit) (Some (single (Given [part]))) prefix (mkFrame tt w)
  = (Raise AttributeError,
     mkFrame tt (mkWorld (fs w) (S (clock w)) (requests w) (log w))).
Proof. destruct w. repeat split. Qed.

(** C3 on [failing_stream]: two images are persisted before the service
    fails, and the request returns their two paths. *)
Lemma streaming_failure_witness :
  generate_image_streaming (H:=failing_env) (L:=unit) "a meme" "stream"
    (mkFrame tt empty_world)
  = (Ret ["stream_0.jpg"; "stream_1.png"],
     mkFrame tt
       (mkWorld (fs failing_world) 0 1
          (log failing_world ++ [StreamingError (ServiceError "quota exceeded")]))).
Proof.
  apply (proj1 (streaming_failure_returns_accumulator (H:=failing_env) (L:=unit)
           "a meme" "stream" (mkFrame tt empty_world) (chunks failing_stream)
           (ServiceError "quota exceeded")
           (mkLocals ["stream_0.jpg"; "stream_1.png"] 2) failing_world
           eq_refl eq_refl)).
Defined.

(** C5 on a part with the text "hello" and a PNG image: with [None] as the
    mime type the display shows both and the streaming loop raises after the
    text; with the mime type image/png the streaming loop saves the image. *)
Lemma text_then_image_witness :
  process_part (H:=failing_env) (L:=unit) untyped_part (mkFrame tt empty_world)
  = (Ret tt,
     mkFrame tt
       (mkWorld ∅ 0 0 [DisplayMarkdown "hello"; ImageSize 1024 1024; DisplayImage png])) /\
  stream_part (H:=failing_env) "stream" untyped_part (mkFrame (mkLocals [] 0) empty_world)
  = (Raise AttributeError,
     mkFrame (mkLocals [] 0) (mkWorld ∅ 0 0 [TextEcho "hello"])) /\
  stream_part (H:=failing_env) "stream" both_part (mkFrame (mkLocals [] 0) empty_world)
  = (Ret tt,
     mkFrame (mkLocals ["stream_0.png"] 1)
       (mkWorld (<["stream_0.png" := Bytes png]> ∅) 0 0
          [TextEcho "hello"; FileSaved "stream_0.png"; ImageGenerated 1024 1024;
           DisplayImage png])).
Proof.
  split; [|split].
  - apply (proj1 (text_then_image (H:=failing_env) "stream" untyped_part "h" "ello" x89
                    [x50; x4e; x47] (mkBlob (Given png) PyNone)
                    (mkLocals [] 0) empty_world eq_refl eq_refl eq_refl)).
  - apply (proj2 (proj2 (text_then_image (H:=failing_env) "stream" untyped_part "h" "ello"
                           x89 [x50; x4e; x47] (mkBlob (Given png) PyNone)
                           (mkLocals [] 0) empty_world eq_refl eq_refl eq_refl))).
    reflexivity.
  - apply (proj1 (proj2 (text_then_image (H:=failing_env) "stream" both_part "h" "ello"
                           x89 [x50; x4e; x47] (mkBlob (Given png) (Given "image/png"))
                           (mkLocals [] 0) empty_world eq_refl eq_refl eq_refl))
             "image/png").
    reflexivity.
Defined.

(** C7 on [empty_candidates_stream]: the image of the second chunk is
    never saved. *)
Lemma empty_candidates_witness :
  generate_image_streaming (H:=empty_candidates_env) (L:=unit) "a meme" "stream"
    (mkFrame tt empty_world)
  = (Ret [],
     mkFrame tt
       (mkWorld ∅ 0 1
          [PromptEcho "a meme"; StartingStream; Dot; StreamingError IndexError])).
Proof.
  apply (empty_candidates_abandon_stream (H:=empty_candidates_env) (L:=unit)
           "a meme" "stream" (mkFrame tt empty_world) PyNone
           [single (Given [image_part (Given "image/png")])] None).
  reflexivity.
Defined.

(** ** The loop over the selected rows *)



(** ** The spreadsheet *)

Lemma row_cells_lookup n item m r c :
  row_cells n item m !! (r, c)
  = if decide (r = n)
    then match data_cell item c with Some v => Some v | None => m !! (r, c) end
    else m !! (r, c).
Proof.
  unfold row_cells. destruct (decide (r = n)) as [->|Hne].
  - do 10 (destruct c as [|c]; [now simplify_map_eq|]).
    simpl. now simplify_map_eq.
  - rewrite !lookup_insert_ne by congruence. reflexivity.
Qed.

Lemma rows_cells_lookup items : forall n m r c,
  rows_cells n items m !! (r, c)
  = match (if decide (n <= r) then items !! (r - n) else None) ≫= (fun item => data_cell item c) with
    | Some v => Some v
    | None => m !! (r, c)
    end.
Proof.
  induction items as [|item rest IH]; intros n m r c; simpl.
  - destruct (decide (n <= r)); reflexivity.
  - rewrite IH, row_cells_lookup.
    destruct (decide (S n <= r)) as [Hle|Hle].
    + destruct (decide (n <= r)); [|lia].
      replace (r - n) with (S (r - S n)) by lia. simpl.
      destruct (rest !! (r - S n) ≫= _); [reflexivity|].
      destruct (decide (r = n)); [lia|reflexivity].
    + simpl. destruct (decide (r = n)) as [->|Hne].
      * destruct (decide (n <= n)); [|lia]. rewrite Nat.sub_diag. simpl.
        reflexivity.
      * destruct (decide (n <= r)); [lia|]. reflexivity.
Qed.

Lemma embedded_lookup w items : forall n i,
  embedded w n items !! i
  = (fun item => ("J" +:+ str (n + i),
                  mkXLImage (image_path item) (bytes_at w (image_path item)) 200 200))
    <$> items !! i.
Proof.
  induction items as [|item rest IH]; intros n i; simpl.
  - reflexivity.
  - destruct i as [|i]; simpl.
    + now rewrite Nat.add_0_r.
    + rewrite IH. now replace (S n + i) with (n + S i) by lia.
Qed.

Lemma embedded_length w items : forall n, length (embedded w n items) = length items.
Proof. induction items as [|item rest IH]; intros n; simpl; [|rewrite IH]; reflexivity. Qed.

Lemma ws_cell_run r c v ws w :
  ws_cell r c v (mkFrame ws w)
  = (Ret tt, mkFrame (mkWorksheet (title ws) (<[(r, c) := v]> (cells ws)) (images ws)) w).
Proof. reflexivity. Qed.

Lemma export_row_run `{Env} n item ws w :
  loadable w (image_path item) ->
  export_row n item (mkFrame ws w)
  = (Ret tt,
     mkFrame (mkWorksheet (title ws) (row_cells n item (cells ws))
                (images ws ++ embedded w n [item])) w).
Proof.
  intros (d & size & Hfile & Hopen). unfold export_row.
  do 9 (rewrite (bind_ret _ _ _ _ _ (ws_cell_run _ _ _ _ _))).
  assert (Hload : XLImage_load (L:=Worksheet) (image_path item)
                    (mkFrame (mkWorksheet (title ws) (row_cells n item (cells ws)) (images ws)) w)
                  = (Ret (mkXLImage (image_path item) d (fst size) (snd size)),
                     mkFrame (mkWorksheet (title ws) (row_cells n item (cells ws)) (images ws)) w)).
  { unfold XLImage_load, Image_open_path, Image_open, bind, get_world.
    cbn [world_of]. rewrite Hfile, Hopen. reflexivity. }
  unfold row_cells in Hload. cbn [title cells images] in *.
  rewrite (bind_ret _ _ _ _ _ Hload).
  unfold embedded, bytes_at. rewrite Hfile. reflexivity.
Qed.

Lemma export_rows_run `{Env} items : forall n ws w,
  (forall item, item ∈ items -> loadable w (image_path item)) ->
  for_enumerate n items export_row (mkFrame ws w)
  = (Ret tt,
     mkFrame (mkWorksheet (title ws) (rows_cells n items (cells ws))
                (images ws ++ embedded w n items)) w).
Proof.
  induction items as [|item rest IH]; intros n ws w Hload; simpl.
  - rewrite app_nil_r. now destruct ws.
  - erewrite bind_ret by (apply export_row_run, Hload; left).
    rewrite IH by (intros it Hit; apply Hload; now right).
    simpl. now rewrite <- app_assoc.
Qed.

Lemma header_row_run ws w :
  for_enumerate 1 headers (fun col header => ws_cell 1 col (VStr header)) (mkFrame ws w)
  = (Ret tt, mkFrame (mkWorksheet (title ws) (header_cells (cells ws)) (images ws)) w).
Proof.
  reflexivity.
Qed.

Lemma header_cells_lookup r c :
  header_cells ∅ !! (r, c)
  = match r, c with
    | 1, S c' => VStr <$> headers !! c'
    | _, _ => None
    end.
Proof.
  unfold header_cells. destruct (decide (r = 1)) as [->|Hne].
  - do 11 (destruct c as [|c]; [now simplify_map_eq|]).
    now simplify_map_eq.
  - rewrite !lookup_insert_ne by congruence. rewrite lookup_empty.
    destruct r as [|[|r]]; [reflexivity|congruence|reflexivity].
Qed.

(** The workbook for artifacts whose files load. *)
Lemma build_workbook_run `{Env} items ws w :
  Forall (fun item => loadable w (image_path item)) items ->
  build_workbook items (mkFrame ws w)
  = (Ret (mkWorksheet "Memes" (rows_cells 2 items (header_cells (cells ws)))
            (images ws ++ embedded w 2 items)),
     mkFrame (mkWorksheet "Memes" (rows_cells 2 items (header_cells (cells ws)))
                (images ws ++ embedded w 2 items)) w).
Proof.
  intros Hload. unfold build_workbook.
  step.
  step.
  rewrite (bind_ret _ _ _ _ _ (header_row_run _ _)).
  rewrite (bind_ret _ _ _ tt _ (export_rows_run items 2 _ w (proj1 (Forall_forall _ _) Hload))).
  reflexivity.
Qed.

(** C6. For artifacts whose image files load, the export builds the sheet
    "Memes" with one header row naming the 10 columns, then one data row
    per artifact in the order of the list, and embeds for the i-th artifact
    the image read from its file at 200 x 200, anchored in column J of its
    row. *)
Theorem export_layout `{Env} st w df items :
  marketing_data st = Some df ->
  generated_images st = Some items ->
  Forall (fun item => loadable w (image_path item)) items ->
  exists ws,
    export_to_excel (mkFrame st w)
    = (Ret tt,
       mkFrame st
         (mkWorld (<["memes_export.xlsx" := Xlsx ws]> (fs w)) (clock w) (requests w)
            (log w ++ [StDownloadButton "Download Excel" "memes_export.xlsx" (Xlsx ws)]))) /\
    title ws = "Memes" /\
    length headers = 10 /\
    (forall r c, cells ws !! (r, c) = expected_cell items r c) /\
    length (images ws) = length items /\
    (forall i item, items !! i = Some item ->
       exists d, fs w !! image_path item = Some (Bytes d) /\
         images ws !! i
         = Some ("J" +:+ str (i + 2), mkXLImage (image_path item) d 200 200)).
Proof.
  intros Hdata Hitems Hload.
  exists (mkWorksheet "Memes" (rows_cells 2 items (header_cells ∅)) (embedded w 2 items)).
  split; [|split; [reflexivity|split; [reflexivity|split; [|split]]]].
  - unfold export_to_excel. step.
    cbn [locals]. rewrite Hdata, Hitems.
    assert (Hcall : call (L:=session_state) (build_workbook items) (mkWorksheet "Sheet" ∅ [])
                      (mkFrame st w)
                    = (Ret (mkWorksheet "Memes" (rows_cells 2 items (header_cells ∅))
                              (embedded w 2 items)), mkFrame st w)).
    { unfold call. cbn [world_of locals]. now rewrite build_workbook_run. }
    rewrite (bind_ret _ _ _ _ _ Hcall). reflexivity.
  - intros r c. cbn [cells]. rewrite rows_cells_lookup, header_cells_lookup.
    destruct r as [|[|r]]; simpl.
    + reflexivity.
    + destruct c; reflexivity.
    + replace (r - 0) with r by lia.
      destruct (items !! r) as [item|]; simpl.
      * destruct c as [|c]; [reflexivity|]. simpl.
        destruct (artifact_values item !! c); reflexivity.
      * destruct c; reflexivity.
  - cbn [images]. apply embedded_length.
  - intros i item Hi. cbn [images].
    rewrite Forall_forall in Hload.
    destruct (Hload item) as (d & size & Hfile & _).
    { apply list_elem_of_lookup. now exists i. }
    exists d. split; [exact Hfile|].
    rewrite embedded_lookup, Hi. cbn [fmap option_fmap option_map].
    unfold bytes_at. rewrite Hfile.
    now replace (2 + i) with (i + 2) by lia.
Qed.

(** C6 on two artifacts. *)
Lemma export_layout_witness :
  exists ws,
    export_to_excel (H:=failing_env) (mkFrame exported_session exported_world)
    = (Ret tt,
       mkFrame exported_session
         (mkWorld (<["memes_export.xlsx" := Xlsx ws]> (fs exported_world))
            (clock exported_world) (requests exported_world)
            (log exported_world ++
               [StDownloadButton "Download Excel" "memes_export.xlsx" (Xlsx ws)]))) /\
    title ws = "Memes" /\
    length headers = 10 /\
    (forall r c, cells ws !! (r, c) = expected_cell exported_items r c) /\
    length (images ws) = length exported_items /\
    (forall i item, exported_items !! i = Some item ->
       exists d, fs exported_world !! image_path item = Some (Bytes d) /\
         images ws !! i
         = Some ("J" +:+ str (i + 2), mkXLImage (image_path item) d 200 200)).
Proof.
  apply (export_layout (H:=failing_env) exported_session exported_world
           [sample_row; sample_row; sample_row; sample_row] exported_items eq_refl eq_refl).
  apply List.Forall_cons; [exists png, (1024, 1024); split; reflexivity|].
  apply List.Forall_cons; [exists png, (1024, 1024); split; reflexivity|].
  apply List.Forall_nil.
Defined.

(** ** The marketing data *)














(** ** Where the guards do cover the absence *)

Lemma for_each_skip {L A} (xs : list A) (body : A -> M L unit) s :
  Forall (fun x => body x s = (Ret tt, s)) xs -> for_each xs body s = (Ret tt, s).
Proof.
  induction 1 as [|x xs Hx _ IH]; simpl; [reflexivity|].
  now rewrite (bind_ret _ _ _ _ _ Hx).
Qed.

(** Where the guards of [extract_and_save_images] do cover the absence:
    no response; no candidates (missing, [None] or empty) and no direct
    parts attribute; candidates without content, or with content that has
    no parts attribute.  The helper returns the empty list and changes
    nothing. *)
Theorem extract_and_save_images_no_structure `{Env} {L} prefix (s : frame L) :
  extract_and_save_images None prefix s = (Ret [], s) /\
  (forall cands,
     cands = Missing \/ cands = PyNone \/ cands = Given [] ->
     extract_and_save_images (Some (mkResponse cands Missing)) prefix s = (Ret [], s)) /\
  (forall c cs dp,
     Forall (fun candidate =>
               match content candidate with
               | Given ct => parts ct = Missing
               | _ => True
               end) (c :: cs) ->
     extract_and_save_images (Some (mkResponse (Given (c :: cs)) dp)) prefix s = (Ret [], s)).
Proof.
  destruct s as [l w]. split; [reflexivity|]. split.
  - intros cands [->|[->| ->]]; reflexivity.
  - intros c cs dp Hall. unfold extract_and_save_images, call.
    cbn [candidates world_of locals].
    match goal with
    | |- context [bind (for_each ?xs ?body) _ ?s0] =>
        assert (Hloop : for_each xs body s0 = (Ret tt, s0))
    end.
    { apply for_each_skip. eapply Forall_impl; [exact Hall|].
      intros candidate Hc. cbn beta in *.
      destruct (content candidate) as [| |ct]; try reflexivity.
      now rewrite Hc. }
    rewrite (bind_ret _ _ _ _ _ Hloop). reflexivity.
Qed.

Lemma stream_chunk_skip `{Env} save_prefix chunk l w :
  without_parts chunk ->
  stream_chunk save_prefix chunk (mkFrame l w)
  = (Ret tt, mkFrame l (mkWorld (fs w) (clock w) (requests w) (log w ++ [Dot]))).
Proof.
  unfold stream_chunk. intros [Hc|(c & cs & Hc & [Hct|(ct & Hct & Hps)])].
  - step. now rewrite Hc.
  - step. rewrite Hc. cbn. now rewrite Hct.
  - step. rewrite Hc. cbn. rewrite Hct. cbn.
    now rewrite Hps.
Qed.

Lemma stream_chunks_skip `{Env} save_prefix cs : forall l w,
  Forall without_parts cs ->
  for_each cs (stream_chunk save_prefix) (mkFrame l w)
  = (Ret tt,
     mkFrame l (mkWorld (fs w) (clock w) (requests w) (log w ++ replicate (length cs) Dot))).
Proof.
  induction cs as [|chunk cs IH]; intros l w Hall.
  - simpl. rewrite app_nil_r. now destruct w.
  - inversion Hall as [|? ? Hchunk Hrest]; subst. simpl.
    rewrite (bind_ret _ _ _ _ _ (stream_chunk_skip save_prefix chunk l w Hchunk)).
    rewrite (IH l (mkWorld (fs w) (clock w) (requests w) (log w ++ [Dot])) Hrest).
    cbn [fs clock requests log]. now rewrite <- app_assoc.
Qed.

(** A chunk with [None] on its path to the parts is skipped: the loop
    announces it, changes nothing else and goes on with the next chunk.  A
    stream made of such chunks is read to its end, one announcement per
    chunk, and the request reports how the stream itself ended, returns the
    empty accumulator and writes no file. *)
Theorem chunks_without_parts_skipped `{Env} {L} prompt save_prefix (s : frame L) cs fail :
  generate_content_stream (requests (world_of s)) prompt = mkStream cs fail ->
  Forall without_parts cs ->
  (forall chunk l w,
     chunk ∈ cs ->
     stream_chunk save_prefix chunk (mkFrame l w)
     = (Ret tt, mkFrame l (mkWorld (fs w) (clock w) (requests w) (log w ++ [Dot])))) /\
  generate_image_streaming prompt save_prefix s
  = (Ret [],
     mkFrame (locals s)
       (mkWorld (fs (world_of s)) (clock (world_of s)) (S (requests (world_of s)))
          (log (world_of s) ++
             PromptEcho (first100 prompt) :: StartingStream ::
             replicate (length cs) Dot ++
             [match fail with
              | Some e => StreamingError e
              | None => StreamingComplete 0
              end]))).
Proof.
  intros Hstream Hall. split.
  - intros chunk l w Hin. apply stream_chunk_skip.
    rewrite Forall_forall in Hall. now apply Hall.
  - rewrite generate_image_streaming_run. cbv zeta.
    rewrite Hstream. unfold for_stream. cbn [chunks failure].
    rewrite (bind_ret _ _ _ _ _
               (stream_chunks_skip save_prefix cs (mkLocals [] 0)
                  (started (world_of s) prompt) Hall)).
    destruct fail as [e|]; unfold finished, started; cbn;
      rewrite <- !app_assoc; reflexivity.
Qed.

(** The same on [idle_stream]: three chunks, three announcements, and the
    stream is complete. *)
Lemma chunks_without_parts_witness :
  (forall chunk l w,
     chunk ∈ chunks idle_stream ->
     stream_chunk (H:=idle_env) "stream" chunk (mkFrame l w)
     = (Ret tt, mkFrame l (mkWorld (fs w) (clock w) (requests w) (log w ++ [Dot])))) /\
  generate_image_streaming (H:=idle_env) (L:=unit) "a meme" "stream" (mkFrame tt empty_world)
  = (Ret [],
     mkFrame tt
       (mkWorld ∅ 0 1
          [PromptEcho "a meme"; StartingStream; Dot; Dot; Dot; StreamingComplete 0])).
Proof.
  apply (chunks_without_parts_skipped (H:=idle_env) (L:=unit) "a meme" "stream"
           (mkFrame tt empty_world) (chunks idle_stream) None eq_refl).
  apply List.Forall_cons; [now left|].
  apply List.Forall_cons;
    [right; exists (mkCandidate PyNone), []; split; [reflexivity|now left]|].
  apply List.Forall_cons;
    [right; exists (mkCandidate (Given (mkContent PyNone))), []; split;
       [reflexivity|right; exists (mkContent PyNone); now split]|].
  apply List.Forall_nil.
Defined.

(** The defaults of the extension: a payload without the [mime_type]
    attribute counts as "image/png", a mime type the table does not know
    gives ".png", and for "image/jpeg" the extension of the table ends the
    file name of either mode. *)
Theorem extension_defaults `{Env} {L} (s : frame L) :
  (forall d, mime_type_or_default (mkBlob d Missing) = Some "image/png") /\
  (forall mime, guess_extension mime = None -> extension (Some mime) s = (Ret ".png", s)) /\
  (forall c e prefix b bs l w,
     guess_extension "image/jpeg" = Some (String c e) ->
     saved_files
       (locals (snd (stream_part prefix
                       (mkPart PyNone (Given (mkBlob (Given (b :: bs)) (Given "image/jpeg"))))
                       (mkFrame l w))))
     = saved_files l ++ [prefix +:+ "_" +:+ str (file_index l) +:+ String c e] /\
     fst (extract_and_save_images (L:=unit)
            (Some (single (Given [mkPart PyNone
                                    (Given (mkBlob (Given (b :: bs)) (Given "image/jpeg")))])))
            prefix (mkFrame tt w))
     = Ret [prefix +:+ "_" +:+ now (clock w) +:+ "_" +:+ str 0 +:+ String c e]).
Proof.
  split; [reflexivity|]. split.
  - intros mime Hguess. unfold extension. now rewrite Hguess.
  - intros c e prefix b bs l w Hguess. split.
    + unfold stream_part, extension, try_except, bind, Image_open. cbn.
      rewrite Hguess. destruct (image_open (b :: bs)) as [[wd ht]|]; reflexivity.
    + unfold extract_and_save_images, call, extract_part, extension, bind. cbn.
      rewrite Hguess. reflexivity.
Qed.

(** ** Failure of the export *)

Lemma export_row_missing `{Env} n item ws w :
  fs w !! image_path item = None ->
  export_row n item (mkFrame ws w)
  = (Raise FileNotFoundError,
     mkFrame (mkWorksheet (title ws) (row_cells n item (cells ws)) (images ws)) w).
Proof.
  intros Hfile. unfold export_row.
  do 9 (rewrite (bind_ret _ _ _ _ _ (ws_cell_run _ _ _ _ _))).
  unfold XLImage_load, Image_open_path, bind, get_world. cbn [world_of].
  rewrite Hfile. reflexivity.
Qed.

(** A failure of the export is not caught: when the image file of the
    first artifact is gone, [export_to_excel] raises and nothing is
    written. *)
Theorem export_missing_file_raises `{Env} st w df item items :
  marketing_data st = Some df ->
  generated_images st = Some (item :: items) ->
  fs w !! image_path item = None ->
  export_to_excel (mkFrame st w) = (Raise FileNotFoundError, mkFrame st w).
Proof.
  intros Hdata Hitems Hfile. unfold export_to_excel.
  step. cbn [locals]. rewrite Hdata, Hitems.
  assert (Hcall : call (L:=session_state) (build_workbook (item :: items))
                    (mkWorksheet "Sheet" ∅ []) (mkFrame st w)
                  = (Raise FileNotFoundError, mkFrame st w)).
  { unfold call, build_workbook. cbn [world_of locals].
    step.
    step.
    rewrite (bind_ret _ _ _ _ _ (header_row_run _ _)).
    cbn [for_enumerate].
    pose proof (export_row_missing 2 item
                  (mkWorksheet "Memes" (header_cells ∅) []) w Hfile) as Hrow.
    cbn [title cells images] in *.
    rewrite (bind_raise _ _ _ _ _ (bind_raise _ _ _ _ _ Hrow)). reflexivity. }
  rewrite (bind_raise _ _ _ _ _ Hcall). reflexivity.
Qed.

(** The same for two artifacts in an empty working directory. *)
Lemma export_missing_file_witness :
  export_to_excel (H:=failing_env) (mkFrame exported_session empty_world)
  = (Raise FileNotFoundError, mkFrame exported_session empty_world).
Proof.
  exact (export_missing_file_raises (H:=failing_env) exported_session empty_world
           [sample_row; sample_row; sample_row; sample_row]
           (artifact_of 0 "meme_0_0.jpg" sample_row)
           [artifact_of 3 "meme_3_0.jpg" sample_row] eq_refl eq_refl eq_refl).
Defined.

(** ** Decimal numerals and the texts built from them *)

Lemma append_nil_l (b : string) : EmptyString +:+ b = b.
Proof. reflexivity. Qed.

Lemma append_cons x (a b : string) : String x a +:+ b = String x (a +:+ b).
Proof. reflexivity. Qed.

Lemma append_assoc (a b c : string) : (a +:+ b) +:+ c = a +:+ b +:+ c.
Proof.
  induction a as [|x a IH]; [reflexivity|]. rewrite !append_cons. now f_equal.
Qed.

Lemma append_forallb p (a b : string) :
  string_forallb p (a +:+ b) = string_forallb p a && string_forallb p b.
Proof.
  induction a as [|x a IH]; [reflexivity|].
  rewrite append_cons. simpl. now rewrite IH, andb_assoc.
Qed.

Lemma pretty_N_char_digit x : is_digit (pretty_N_char x) = true.
Proof. unfold pretty_N_char. repeat case_match; reflexivity. Qed.

Lemma pretty_N_char_value x : (x < 10)%N -> digit_value (pretty_N_char x) = Z.of_N x.
Proof.
  intros Hx.
  assert (x = 0 \/ x = 1 \/ x = 2 \/ x = 3 \/ x = 4 \/ x = 5 \/ x = 6 \/ x = 7
          \/ x = 8 \/ x = 9)%N as Hcases by lia.
  repeat (destruct Hcases as [->|Hcases]; [reflexivity|]). now subst.
Qed.

Lemma pretty_N_go_digits x : forall s,
  string_forallb is_digit s = true -> string_forallb is_digit (pretty_N_go x s) = true.
Proof.
  induction (N.lt_wf_0 x) as [x _ IH]; intros s Hs.
  destruct (decide (x = 0%N)) as [->|Hx]; [exact Hs|].
  rewrite pretty_N_go_step by lia. apply IH.
  - apply N.div_lt; lia.
  - simpl. now rewrite pretty_N_char_digit.
Qed.

Lemma pretty_N_go_length x : forall s, String.length s <= String.length (pretty_N_go x s).
Proof.
  induction (N.lt_wf_0 x) as [x _ IH]; intros s.
  destruct (decide (x = 0%N)) as [->|Hx]; [reflexivity|].
  rewrite pretty_N_go_step by lia.
  etransitivity; [|apply IH, N.div_lt; lia]. simpl. lia.
Qed.

Lemma str_digits n : string_forallb is_digit (str n) = true.
Proof.
  unfold str, pretty, pretty_nat, pretty, pretty_N.
  case_decide; [reflexivity|]. now apply pretty_N_go_digits.
Qed.

Lemma str_not_empty n : str n <> EmptyString.
Proof.
  unfold str, pretty, pretty_nat, pretty, pretty_N.
  case_decide as Hn; [discriminate|].
  rewrite pretty_N_go_step by lia. intros Hnil.
  pose proof (pretty_N_go_length (N.of_nat n `div` 10)
                (String (pretty_N_char (N.of_nat n `mod` 10)) EmptyString)) as Hlen.
  rewrite Hnil in Hlen. simpl in Hlen. lia.
Qed.

(** A numeral ends where the digits end: two texts that start with digits
    and go on with something else agree on the digits. *)
Lemma digits_prefix_unique d1 : forall d2 e1 e2,
  string_forallb is_digit d1 = true -> string_forallb is_digit d2 = true ->
  stops e1 -> stops e2 ->
  d1 +:+ e1 = d2 +:+ e2 -> d1 = d2.
Proof.
  induction d1 as [|c d1 IH]; intros [|c' d2] e1 e2 H1 H2 He1 He2 Heq;
    rewrite ?append_nil_l, ?append_cons in Heq; simpl in *.
  - reflexivity.
  - subst e1. simpl in He1. apply andb_true_iff in H2 as [Hc _]. congruence.
  - subst e2. simpl in He2. apply andb_true_iff in H1 as [Hc _]. congruence.
  - injection Heq as -> Heq.
    apply andb_true_iff in H1 as [_ H1]. apply andb_true_iff in H2 as [_ H2].
    f_equal. now apply IH with e1 e2.
Qed.

(** Numerals followed by something else are equal only for equal numbers. *)
Lemma str_prefix_inj i j e1 e2 :
  stops e1 -> stops e2 -> str i +:+ e1 = str j +:+ e2 -> i = j.
Proof.
  intros He1 He2 Heq. apply (inj pretty).
  now apply digits_prefix_unique with e1 e2; auto using str_digits.
Qed.

Lemma int_digits_value s : forall acc,
  string_forallb is_digit s = true ->
  int_digits acc s = Some (acc * 10 ^ Z.of_nat (String.length s) + digits_value s)%Z.
Proof.
  induction s as [|c s IH]; intros acc Hs; simpl in *.
  - f_equal. lia.
  - apply andb_true_iff in Hs as [Hc Hs]. rewrite Hc, IH by exact Hs.
    f_equal. rewrite Nat2Z.inj_succ, Z.pow_succ_r by lia. lia.
Qed.

Lemma pretty_N_go_value x : forall s,
  string_forallb is_digit s = true ->
  digits_value (pretty_N_go x s)
  = (Z.of_N x * 10 ^ Z.of_nat (String.length s) + digits_value s)%Z.
Proof.
  induction (N.lt_wf_0 x) as [x _ IH]; intros s Hs.
  destruct (decide (x = 0%N)) as [->|Hx]; [rewrite pretty_N_go_0; simpl; lia|].
  rewrite pretty_N_go_step by lia.
  rewrite IH; [|apply N.div_lt; lia|simpl; now rewrite pretty_N_char_digit].
  simpl. rewrite pretty_N_char_value by (apply N.mod_lt; lia).
  rewrite Nat2Z.inj_succ, Z.pow_succ_r by lia.
  rewrite N2Z.inj_div, N2Z.inj_mod.
  pose proof (Z.div_mod (Z.of_N x) 10 ltac:(lia)) as Hdm. simpl Z.of_N. lia.
Qed.

Lemma str_value n : digits_value (str n) = Z.of_nat n.
Proof.
  unfold str, pretty, pretty_nat, pretty, pretty_N.
  case_decide as Hn.
  - replace n with 0 by lia. reflexivity.
  - rewrite pretty_N_go_value by reflexivity. simpl. lia.
Qed.

Lemma digits_not_space s :
  string_forallb is_digit s = true -> string_forallb (fun c => negb (is_space c)) s = true.
Proof.
  induction s as [|c s IH]; simpl; [reflexivity|].
  intros [Hc Hs]%andb_true_iff. rewrite IH by exact Hs.
  rewrite andb_true_r. unfold is_digit in Hc. unfold is_space.
  apply andb_true_iff in Hc as [H48 H57]. apply Nat.leb_le in H48, H57.
  destruct (Nat.leb_spec 9 (nat_of_ascii c)), (Nat.leb_spec (nat_of_ascii c) 13),
    (Nat.leb_spec 28 (nat_of_ascii c)), (Nat.leb_spec (nat_of_ascii c) 32);
    simpl; try reflexivity; lia.
Qed.

Lemma rstrip_no_space s :
  string_forallb (fun c => negb (is_space c)) s = true -> rstrip s = s.
Proof.
  induction s as [|c s IH]; simpl; [reflexivity|].
  intros [Hc Hs]%andb_true_iff. rewrite IH by exact Hs.
  apply negb_true_iff in Hc. rewrite Hc. now destruct s.
Qed.

Lemma strip_no_space s :
  string_forallb (fun c => negb (is_space c)) s = true -> strip s = s.
Proof.
  intros Hs. unfold strip.
  replace (lstrip s) with s; [now apply rstrip_no_space|].
  destruct s as [|c s]; [reflexivity|]. simpl in *.
  apply andb_true_iff in Hs as [Hc _]. apply negb_true_iff in Hc. now rewrite Hc.
Qed.

(** [int] reads back what [str] writes. *)
Lemma int_str n : int (str n) = Some (Z.of_nat n).
Proof.
  pose proof (str_digits n) as Hd. pose proof (str_value n) as Hv.
  pose proof (str_not_empty n) as Hne.
  unfold int. rewrite strip_no_space by now apply digits_not_space.
  destruct (str n) as [|c s]; [congruence|]. simpl in Hd, Hv.
  apply andb_true_iff in Hd as [Hc Hs].
  assert (Hsign : c <> "+"%char /\ c <> "-"%char).
  { split; intros ->; discriminate. }
  destruct Hsign as [Hplus Hminus].
  assert (Hu : int_unsigned (String c s) = Some (Z.of_nat n)).
  { simpl. rewrite Hc, int_digits_value by exact Hs. now rewrite Hv. }
  destruct c as [[] [] [] [] [] [] [] []]; try exact Hu; congruence.
Qed.

(** ** The selection of rows *)

Lemma split_first sep (a b : string) :
  string_forallb (fun c => negb (Ascii.eqb c sep)) a = true ->
  split sep (a +:+ String sep b) = a :: split sep b.
Proof.
  induction a as [|c a IH]; intros Ha.
  - rewrite append_nil_l. simpl. now rewrite Ascii.eqb_refl.
  - rewrite append_cons. simpl in *. apply andb_true_iff in Ha as [Hc Ha].
    apply negb_true_iff in Hc. rewrite Hc, IH by exact Ha. reflexivity.
Qed.

Lemma digits_no_colon s :
  string_forallb is_digit s = true ->
  string_forallb (fun c => negb (Ascii.eqb c ":")) s = true.
Proof.
  induction s as [|c s IH]; simpl; [reflexivity|].
  intros [Hc Hs]%andb_true_iff. rewrite IH by exact Hs. rewrite andb_true_r.
  apply negb_true_iff, Ascii.eqb_neq. intros ->. discriminate.
Qed.

Lemma prefix_cons_ne a s1 c s2 :
  a <> c -> String.prefix (String a s1) (String c s2) = false.
Proof.
  intros Hne.
  change (String.prefix (String a s1) (String c s2))
    with (if ascii_dec a c then String.prefix s1 s2 else false).
  now destruct (ascii_dec a c).
Qed.

Lemma replace_go_digits s :
  string_forallb is_digit s = true -> replace_go "Row " EmptyString 0 s = s.
Proof.
  induction s as [|c s IH]; [reflexivity|].
  cbn [string_forallb replace_go]. intros [Hc Hs]%andb_true_iff.
  rewrite prefix_cons_ne, IH by (try exact Hs; intros <-; discriminate).
  reflexivity.
Qed.

Lemma replace_row s : replace "Row " EmptyString ("Row " +:+ s) = replace_go "Row " EmptyString 0 s.
Proof. destruct s; reflexivity. Qed.

(** The option of a row reads back as the index of the row, whatever the
    meme template holds. *)
Lemma option_text_index i row :
  int (replace "Row " EmptyString (before_colon (option_text i row))) = Some (Z.of_nat i).
Proof.
  unfold option_text, before_colon.
  rewrite <- (append_assoc "Row " (str i)).
  change (": " +:+ fmt (column 0 row)) with (String ":" (" " +:+ fmt (column 0 row))).
  rewrite split_first.
  - rewrite replace_row, replace_go_digits by apply str_digits. apply int_str.
  - rewrite append_forallb. apply andb_true_iff.
    split; [reflexivity|apply digits_no_colon, str_digits].
Qed.

Lemma option_text_not_select_all i row : option_text i row <> "Select All".
Proof. discriminate. Qed.

(** Every option offered is "Select All" or the text of a row of the
    frame. *)
Lemma options_list_rows df opt :
  opt ∈ options_list df ->
  opt = "Select All" \/ exists i row, df !! i = Some row /\ opt = option_text i row.
Proof.
  unfold options_list. intros Hin.
  apply elem_of_cons in Hin as [Heq|Hin]; [now left|right].
  apply list_elem_of_lookup in Hin as [i Hi].
  apply list_lookup_imap_Some in Hi as (row & Hrow & ->). now exists i, row.
Qed.

(** Whatever is selected among the options offered, the indices parse, are
    in range, and without "Select All" they are the rows selected, in the
    order of the selection. *)
Theorem selection_gives_rows df (selected_options : list string) :
  Forall (fun opt => opt ∈ options_list df) selected_options ->
  exists idxs,
    selected_indices selected_options df = Some (map Z.of_nat idxs) /\
    Forall (fun i => i < length df) idxs /\
    ("Select All" ∈ selected_options -> idxs = seq 0 (length df)) /\
    ("Select All" ∉ selected_options ->
       Forall2 (fun opt i => exists row, df !! i = Some row /\ opt = option_text i row)
               selected_options idxs).
Proof.
  intros Hoffered. unfold selected_indices.
  destruct (existsb _ _) eqn:Hall.
  - exists (seq 0 (length df)). split; [reflexivity|]. split; [|split].
    + apply Forall_forall. intros i Hi. apply elem_of_seq in Hi. lia.
    + reflexivity.
    + intros Hnot. exfalso. apply Hnot.
      apply existsb_exists in Hall as (opt & Hin & Heq).
      apply String.eqb_eq in Heq as <-. now apply list_elem_of_In.
  - assert (Hnone : Forall (fun opt => opt <> "Select All") selected_options).
    { apply Forall_forall. intros opt Hin ->.
      apply not_true_iff_false in Hall. apply Hall, existsb_exists.
      exists "Select All". split; [now apply list_elem_of_In|reflexivity]. }
    clear Hall.
    induction selected_options as [|opt opts IH].
    + exists []. repeat split; try constructor. intros Hin. inversion Hin.
    + inversion Hoffered as [|? ? Hopt Hrest]; subst.
      inversion Hnone as [|? ? Hne Hnone']; subst.
      destruct (IH Hrest Hnone') as (idxs & Hsel & Hrange & _ & Hrows).
      destruct (options_list_rows df opt Hopt) as [->|(i & row & Hrow & ->)];
        [congruence|].
      exists (i :: idxs). split; [|split; [|split]].
      * cbn [List.filter].
        replace (negb (String.eqb (option_text i row) "Select All")) with true
          by (symmetry; apply negb_true_iff, String.eqb_neq, option_text_not_select_all).
        cbn [mapM]. rewrite option_text_index, Hsel. reflexivity.
      * constructor; [|exact Hrange]. now apply lookup_lt_Some with row.
      * intros Hin. apply elem_of_cons in Hin as [Heq|Hin]; [discriminate|].
        exfalso. rewrite Forall_forall in Hnone'. now apply (Hnone' _ Hin).
      * intros Hnot. constructor; [now exists row|].
        apply Hrows. intros Hin. apply Hnot. now right.
Qed.

(** ** Effects of a streaming request *)

Lemma on_disk_kept f : kept_by_writes (fun m => exists d, m !! f = Some (Bytes d)).
Proof. intros m name d. apply lookup_bytes_insert. Qed.

Lemma stream_part_world `{Env} Q c n save_prefix part :
  kept_by_writes Q -> preserves (world_is Q c n) (stream_part save_prefix part).
Proof.
  intros HQ [l w] Hw. unfold stream_part.
  destruct part as [t idata]. simpl.
  assert (Hecho : exists lg,
    (match t with
     | Given (String c s) => emit (L:=stream_locals) (TextEcho (first100 (String c s)))
     | _ => ret tt
     end) (mkFrame l w) = (Ret tt, mkFrame l (mkWorld (fs w) (clock w) (requests w) lg))).
  { destruct w. destruct t as [| |[|c' s]]; eexists; reflexivity. }
  destruct Hecho as [lg Hecho]. rewrite (bind_ret _ _ _ _ _ Hecho). clear Hecho.
  assert (Hw1 : world_is Q c n (mkFrame l (mkWorld (fs w) (clock w) (requests w) lg)))
    by exact Hw.
  clear Hw. revert Hw1. generalize (mkWorld (fs w) (clock w) (requests w) lg).
  clear w lg. intros w Hw.
  destruct idata as [| |[d m]]; cbn; try exact Hw.
  destruct d as [| |[|b bs]]; cbn; try exact Hw.
  unfold extension.
  destruct (mime_type_or_default {| data := Given (b :: bs); mime_type := m |}) as [mime|];
    cbn; try exact Hw.
  unfold try_except, bind, Image_open. cbn.
  destruct Hw as (Hfs & Hclock & Hreq).
  destruct (image_open (b :: bs)) as [[wd ht]|]; cbn;
    (split; [apply HQ, Hfs|split; assumption]).
Qed.

Lemma for_stream_world `{Env} Q c n save_prefix strm :
  kept_by_writes Q ->
  preserves (world_is Q c n) (for_stream strm (stream_chunk save_prefix)).
Proof.
  intros HQ. unfold for_stream. apply preserves_bind.
  - apply preserves_for_each. intros chunk. unfold stream_chunk.
    apply preserves_bind; [apply preserves_emit; intros; assumption|intros _].
    apply preserves_bind; [apply preserves_getattr|intros [cs|]]; [|apply preserves_ret].
    apply preserves_bind; [destruct cs; [apply preserves_raise|apply preserves_ret]|intros c0].
    apply preserves_bind; [apply preserves_getattr|intros [ct|]]; [|apply preserves_ret].
    apply preserves_bind; [apply preserves_getattr|intros [ps|]]; [|apply preserves_ret].
    apply preserves_for_each. intros part. now apply stream_part_world.
  - intros _. destruct (failure strm); [apply preserves_raise|apply preserves_ret].
Qed.

(** What a request does to the world, whatever the stream holds. *)
Lemma generate_image_streaming_effects `{Env} {L} prompt save_prefix (s : frame L) :
  exists files w',
    generate_image_streaming prompt save_prefix s = (Ret files, mkFrame (locals s) w') /\
    (forall k f, files !! k = Some f ->
       exists ext, derived_extension ext /\ f = save_prefix +:+ "_" +:+ str k +:+ ext) /\
    (forall f, f ∈ files -> on_disk w' f) /\
    (forall Q, kept_by_writes Q -> Q (fs (world_of s)) -> Q (fs w')) /\
    clock w' = clock (world_of s) /\
    requests w' = S (requests (world_of s)).
Proof.
  rewrite generate_image_streaming_run. cbv zeta.
  pose proof (for_stream_inv save_prefix
                (generate_content_stream (requests (world_of s)) prompt)
                (mkFrame (mkLocals [] 0) (started (world_of s) prompt))) as Hinv.
  pose proof (fun Q HQ => for_stream_world Q (clock (world_of s)) (S (requests (world_of s)))
                save_prefix (generate_content_stream (requests (world_of s)) prompt) HQ
                (mkFrame (mkLocals [] 0) (started (world_of s) prompt))) as Hworld.
  destruct (for_stream _ _ _) as [r s2]. simpl in *.
  destruct Hinv as (_ & Hname & Hdisk).
  { split; [reflexivity|]. split.
    - intros k f Hk. simpl in Hk. rewrite lookup_nil in Hk. discriminate.
    - intros f Hf. simpl in Hf. inversion Hf. }
  eexists _, _. split; [reflexivity|]. split; [exact Hname|]. split; [exact Hdisk|].
  split; [|split].
  - intros Q HQ Hfs. now apply (Hworld Q HQ).
  - now apply (Hworld (fun _ => True)).
  - now apply (Hworld (fun _ => True)).
Qed.

(** A streaming request never raises, whatever the service raises and
    whatever shape the chunks have: it sends exactly one request, never
    reads the clock, leaves every file it returns in the working directory
    and keeps the image files that were there. *)
Theorem generate_image_streaming_never_raises `{Env} {L} prompt save_prefix (s : frame L) :
  exists files w',
    generate_image_streaming prompt save_prefix s = (Ret files, mkFrame (locals s) w') /\
    (forall f, f ∈ files -> on_disk w' f) /\
    (forall f, on_disk (world_of s) f -> on_disk w' f) /\
    clock w' = clock (world_of s) /\
    requests w' = S (requests (world_of s)).
Proof.
  destruct (generate_image_streaming_effects prompt save_prefix s)
    as (files & w' & Hrun & _ & Hdisk & Hkept & Hclock & Hreq).
  exists files, w'. split; [exact Hrun|]. split; [exact Hdisk|].
  split; [|now split].
  intros f Hf. now apply (Hkept _ (on_disk_kept f)).
Qed.

(** ** File names never collide *)

Lemma derived_extension_stops `{Env} ext : dotted_table -> derived_extension ext -> stops ext.
Proof.
  intros Htable [->|[mime Hguess]]; [reflexivity|].
  destruct (Htable mime ext Hguess) as [t ->]. reflexivity.
Qed.

(** Within one request the files saved have pairwise distinct names, so no
    image of the request overwrites another one. *)
Theorem streaming_names_distinct `{Env} {L} prompt save_prefix (s : frame L) files :
  dotted_table ->
  fst (generate_image_streaming prompt save_prefix s) = Ret files ->
  NoDup files.
Proof.
  intros Htable Hrun.
  destruct (generate_image_streaming_effects prompt save_prefix s)
    as (files' & w' & Hrun' & Hname & _).
  rewrite Hrun' in Hrun. injection Hrun as ->.
  apply NoDup_alt. intros i j f Hi Hj.
  destruct (Hname i f Hi) as (ei & Hei & ->).
  destruct (Hname j _ Hj) as (ej & Hej & Heq).
  apply (inj (String.append save_prefix)) in Heq.
  apply (inj (String.append "_")) in Heq.
  exact (str_prefix_inj i j ei ej (derived_extension_stops ei Htable Hei)
           (derived_extension_stops ej Htable Hej) Heq).
Qed.

(** The files of different rows never share a name: a meme of one row
    never overwrites the meme of another row. *)
Theorem rows_never_share_files `{Env} {L} i j prompt1 prompt2 (s1 s2 : frame L)
    files1 files2 :
  i <> j ->
  fst (generate_image_streaming prompt1 ("meme_" +:+ str i) s1) = Ret files1 ->
  fst (generate_image_streaming prompt2 ("meme_" +:+ str j) s2) = Ret files2 ->
  Forall (fun f => f ∉ files2) files1.
Proof.
  intros Hne Hrun1 Hrun2. apply Forall_forall. intros f Hf1 Hf2.
  destruct (generate_image_streaming_effects prompt1 ("meme_" +:+ str i) s1)
    as (? & ? & Hrun1' & Hname1 & _).
  destruct (generate_image_streaming_effects prompt2 ("meme_" +:+ str j) s2)
    as (? & ? & Hrun2' & Hname2 & _).
  rewrite Hrun1' in Hrun1. injection Hrun1 as ->.
  rewrite Hrun2' in Hrun2. injection Hrun2 as ->.
  apply list_elem_of_lookup in Hf1 as [k1 Hk1], Hf2 as [k2 Hk2].
  destruct (Hname1 k1 f Hk1) as (e1 & _ & ->).
  destruct (Hname2 k2 _ Hk2) as (e2 & _ & Heq).
  rewrite !append_assoc in Heq.
  apply (inj (String.append "meme_")) in Heq.
  apply Hne. symmetry. now apply str_prefix_inj in Heq.
Qed.

(** ** The meme loop as a whole *)

Lemma for_each_app {L A} (xs ys : list A) (body : A -> M L unit) s s' :
  for_each xs body s = (Ret tt, s') ->
  for_each (xs ++ ys) body s = for_each ys body s'.
Proof.
  revert s. induction xs as [|x xs IH]; intros s Hrun; simpl in *.
  - now injection Hrun as <-.
  - unfold bind in *. destruct (body x s) as [[[]|e] s1]; [|discriminate].
    now apply IH.
Qed.

(** One turn of the loop for a row of the frame. *)
Lemma generate_meme_step `{Env} df idx row generated w :
  df !! idx = Some row ->
  exists new w',
    generate_meme df idx (mkFrame generated w) = (Ret tt, mkFrame (generated ++ new) w') /\
    (new = [] \/
     exists ext,
       derived_extension ext /\
       new = [artifact_of idx (("meme_" +:+ str idx) +:+ "_" +:+ str 0 +:+ ext) row] /\
       on_disk w' (("meme_" +:+ str idx) +:+ "_" +:+ str 0 +:+ ext)) /\
    (forall f, on_disk w f -> on_disk w' f) /\
    requests w' = S (requests w).
Proof.
  intros Hrow.
  set (spinning := mkWorld (fs w) (clock w) (requests w)
                     (log w ++ [StSpinner ("Generating meme for Row " +:+ str idx +:+ "...")])).
  destruct (generate_image_streaming_effects (meme_prompt row) ("meme_" +:+ str idx)
              (mkFrame generated spinning))
    as (files & w1 & Hrun & Hname & Hdisk & Hkept & _ & Hreq).
  simpl in Hrun, Hkept, Hreq.
  assert (Hmono : forall f, on_disk w f -> on_disk w1 f).
  { intros f Hf. now apply (Hkept _ (on_disk_kept f)). }
  unfold generate_meme, iloc. rewrite Hrow.
  step. step. cbn. fold spinning.
  unfold try_except. rewrite (bind_ret _ _ _ _ _ Hrun).
  destruct files as [|first others].
  - exists [], w1. cbn. rewrite app_nil_r.
    split; [reflexivity|]. split; [now left|]. split; [exact Hmono|exact Hreq].
  - destruct (Hname 0 first eq_refl) as (ext & Hext & ->).
    cbn. unfold Image_open_path, Image_open, bind. cbn.
    destruct (fs w1 !! _) as [[d| |]|] eqn:Hfile; cbn;
      try destruct (image_open d) as [size|]; cbn;
      eexists [_], _; (split; [reflexivity|]);
      (split; [right; exists ext; split; [exact Hext|]; split; [reflexivity|];
               apply Hdisk; left|]);
      (split; [exact Hmono|exact Hreq]).
Qed.

Lemma recorded_kept `{Env} df w w' a :
  (forall f, on_disk w f -> on_disk w' f) -> recorded df w a -> recorded df w' a.
Proof.
  intros Hmono (row & ext & Hrow & Hext & Ha & Hdisk).
  exists row, ext. repeat split; try assumption. now apply Hmono.
Qed.

Lemma generate_meme_loop `{Env} df idxs : forall generated w,
  Forall (fun i => i < length df) idxs ->
  exists new w',
    for_each idxs (generate_meme df) (mkFrame generated w)
    = (Ret tt, mkFrame (generated ++ new) w') /\
    map a_row new `sublist_of` idxs /\
    Forall (recorded df w') new /\
    (forall f, on_disk w f -> on_disk w' f) /\
    requests w' = length idxs + requests w.
Proof.
  induction idxs as [|idx idxs IH]; intros generated w Hrange.
  - exists [], w. rewrite app_nil_r. repeat split; try constructor. auto.
  - inversion Hrange as [|? ? Hidx Hrest]; subst.
    destruct (lookup_lt_is_Some_2 df idx Hidx) as [row Hrow].
    destruct (generate_meme_step df idx row generated w Hrow)
      as (new1 & w1 & Hstep & Hnew1 & Hmono1 & Hreq1).
    destruct (IH (generated ++ new1) w1 Hrest)
      as (new2 & w' & Hloop & Hsub & Hrec & Hmono2 & Hreq2).
    exists (new1 ++ new2), w'. split; [|split; [|split; [|split]]].
    + simpl. rewrite (bind_ret _ _ _ _ _ Hstep), Hloop. now rewrite app_assoc.
    + destruct Hnew1 as [->|(ext & _ & -> & _)]; simpl.
      * now apply sublist_cons_r; left.
      * now apply sublist_skip.
    + apply Forall_app. split; [|exact Hrec].
      destruct Hnew1 as [->|(ext & Hext & -> & Hdisk)]; constructor; [|constructor].
      apply (recorded_kept df w1 w' _ Hmono2).
      exists row, ext. repeat split; assumption.
    + intros f Hf. auto.
    + simpl. lia.
Qed.

(** What the loop built becomes the session's list of artifacts. *)
Lemma generate_memes_state `{Env} st w df idx idxs generated w1 :
  marketing_data st = Some df ->
  for_each (idx :: idxs) (generate_meme df) (mkFrame [] w)
  = (Ret tt, mkFrame ([] ++ generated) w1) ->
  generate_memes (idx :: idxs) (mkFrame st w)
  = (Ret tt,
     mkFrame (mkSession (business_info st) (Some df) (Some generated))
       (mkWorld (fs w1) (clock w1) (requests w1)
          (log w1 ++ [StSuccess ("Generated " +:+ str (length generated) +:+ " memes!")]))).
Proof.
  intros Hdata Hloop.
  unfold generate_memes. step. cbn [locals]. rewrite Hdata.
  assert (Hcall : call (L:=session_state)
                    (for_each (idx :: idxs) (generate_meme df) ;; get_locals) []
                    (mkFrame st w)
                  = (Ret generated, mkFrame st w1)).
  { unfold call. cbn [world_of locals].
    now rewrite (bind_ret _ _ _ _ _ Hloop). }
  rewrite (bind_ret _ _ _ _ _ Hcall). step. step.
  cbn. now rewrite Hdata.
Qed.

(** The meme loop over rows of the frame never raises.  It replaces the
    list of artifacts by a new one that holds at most one artifact per row
    selected, in the order of the selection; each artifact carries the
    fields of its row, and its image is the file [meme_{row}_0{ext}], which
    is in the working directory.  One request is sent per row selected. *)
Theorem generate_memes_records `{Env} st w df idx idxs :
  marketing_data st = Some df ->
  Forall (fun i => i < length df) (idx :: idxs) ->
  exists generated w',
    generate_memes (idx :: idxs) (mkFrame st w)
    = (Ret tt, mkFrame (mkSession (business_info st) (Some df) (Some generated)) w') /\
    map a_row generated `sublist_of` (idx :: idxs) /\
    Forall (recorded df w') generated /\
    requests w' = length (idx :: idxs) + requests w.
Proof.
  intros Hdata Hrange.
  destruct (generate_meme_loop df (idx :: idxs) [] w Hrange)
    as (generated & w1 & Hloop & Hsub & Hrec & _ & Hreq).
  exists generated,
    (mkWorld (fs w1) (clock w1) (requests w1)
       (log w1 ++ [StSuccess ("Generated " +:+ str (length generated) +:+ " memes!")])).
  split; [|split; [exact Hsub|split; [|exact Hreq]]].
  - now apply generate_memes_state.
  - eapply Forall_impl; [exact Hrec|]. intros a Ha.
    now apply (recorded_kept df w1).
Qed.

(** An index outside the frame stops the loop with [IndexError], which
    nothing catches: the session keeps the artifacts it had, although the
    rows before the index were requested and their files written. *)
Theorem generate_memes_out_of_range `{Env} st w df before idx after :
  marketing_data st = Some df ->
  Forall (fun i => i < length df) before ->
  length df <= idx ->
  exists w',
    generate_memes (before ++ idx :: after) (mkFrame st w)
    = (Raise IndexError, mkFrame st w') /\
    requests w' = length before + requests w.
Proof.
  intros Hdata Hrange Hidx.
  destruct (generate_meme_loop df before [] w Hrange)
    as (new & w1 & Hloop & _ & _ & _ & Hreq).
  exists w1. split; [|exact Hreq].
  unfold generate_memes. step. cbn [locals]. rewrite Hdata.
  assert (Hcall : call (L:=session_state)
                    (for_each (before ++ idx :: after) (generate_meme df) ;; get_locals) []
                    (mkFrame st w)
                  = (Raise IndexError, mkFrame st w1)).
  { assert (Hstop : for_each (before ++ idx :: after) (generate_meme df) (mkFrame [] w)
                    = (Raise IndexError, mkFrame ([] ++ new) w1)).
    { rewrite (for_each_app _ _ _ _ _ Hloop). simpl.
      unfold generate_meme at 1, iloc.
      destruct (df !! idx) as [row|] eqn:Hrow; [|reflexivity].
      apply lookup_lt_Some in Hrow. lia. }
    unfold call. cbn [world_of locals].
    now rewrite (bind_raise _ _ _ _ _ Hstop). }
  destruct before as [|b before']; cbn [app] in Hcall |- *;
    rewrite (bind_raise _ _ _ _ _ Hcall); reflexivity.
Qed.

(** ** Displaying a response *)

Lemma raises_only_ret {L A} E (a : A) : raises_only E (@ret L A a).
Proof. intros s e. discriminate. Qed.

Lemma raises_only_bind {L A B} E (m : M L A) (k : A -> M L B) :
  raises_only E m -> (forall a, raises_only E (k a)) -> raises_only E (bind m k).
Proof.
  intros Hm Hk s e. unfold bind. specialize (Hm s).
  destruct (m s) as [[a|e'] s1]; simpl in *.
  - apply Hk.
  - intros [= <-]. now apply Hm.
Qed.

Lemma raises_only_for_each {L A} E (xs : list A) (body : A -> M L unit) :
  (forall x, x ∈ xs -> raises_only E (body x)) -> raises_only E (for_each xs body).
Proof.
  induction xs as [|x xs IH]; intros Hbody; simpl.
  - apply raises_only_ret.
  - apply raises_only_bind.
    + apply Hbody. left.
    + intros _. apply IH. intros y Hy. apply Hbody. now right.
Qed.

Lemma logged_emit {L} (l0 : L) w0 ev :
  preserves (logged l0 w0) (emit ev).
Proof.
  apply preserves_emit. intros l w [Hl (Hfs & Hclock & Hreq & lg & Hlog)].
  cbn in *. split; [exact Hl|]. repeat split; try assumption.
  exists (lg ++ [ev]). cbn. now rewrite Hlog, app_assoc.
Qed.

(** A part is shown without an exception: a picture that cannot be decoded
    is reported. *)
Lemma process_part_returns `{Env} {L} part (s : frame L) :
  fst (process_part part s) = Ret tt.
Proof.
  destruct s as [l w]. unfold process_part, Image_open, try_except.
  destruct (text part) as [| |[|c t]];
    destruct (inline_data part) as [| |blob]; try reflexivity;
    destruct (data blob) as [| |[|b bs]]; try reflexivity;
    cbn; destruct (image_open (b :: bs)); reflexivity.
Qed.

Lemma process_part_logged `{Env} {L} (l0 : L) w0 part :
  preserves (logged l0 w0) (process_part part).
Proof.
  unfold process_part. apply preserves_bind.
  - destruct (text part) as [| |[|c t]];
      first [apply preserves_ret | apply logged_emit].
  - intros _. destruct (inline_data part) as [| |blob]; try apply preserves_ret.
    destruct (data blob) as [| |[|b bs]]; try apply preserves_ret.
    apply preserves_try.
    + apply preserves_bind.
      * unfold Image_open. destruct (image_open (b :: bs));
          [apply preserves_ret|apply preserves_raise].
      * intros size. apply preserves_bind; [apply logged_emit|].
        intros _. apply logged_emit.
    + intros e. apply logged_emit.
Qed.

(** The walk over one parts attribute. *)
Lemma display_parts_logged `{Env} {L} (l0 : L) w0 (a : attr (list Part)) :
  preserves (logged l0 w0)
    (if hasattr a
     then (v <- getattr a ;; ps <- iter v ;; for_each ps process_part)
     else ret tt).
Proof.
  destruct a as [| |ps]; simpl.
  - apply preserves_ret.
  - intros s Hs. exact Hs.
  - intros s Hs. apply (preserves_for_each (logged l0 w0) ps process_part); [|exact Hs].
    intros part. apply process_part_logged.
Qed.

Lemma display_parts_raises `{Env} {L} E (a : attr (list Part)) :
  (a = PyNone -> E TypeError) ->
  raises_only (L:=L) E
    (if hasattr a
     then (v <- getattr a ;; ps <- iter v ;; for_each ps process_part)
     else ret tt).
Proof.
  intros Ha. destruct a as [| |ps]; simpl.
  - apply raises_only_ret.
  - intros s e [= <-]. now apply Ha.
  - intros s e. apply (raises_only_for_each E ps process_part).
    intros part _ s1 e1 Hraise. now rewrite process_part_returns in Hraise.
Qed.

Lemma display_response_logged `{Env} {L} (l0 : L) w0 response :
  preserves (logged l0 w0) (display_response response).
Proof.
  unfold display_response. destruct response as [r|]; [|apply logged_emit].
  destruct (candidates r) as [| |[|c cs]]; try apply display_parts_logged.
  apply preserves_for_each. intros candidate.
  destruct (content candidate) as [| |ct]; try apply preserves_ret.
  apply display_parts_logged.
Qed.

Lemma display_response_raises `{Env} {L} response :
  raises_only (L:=L)
    (fun e => e = TypeError /\ exists r, response = Some r /\ parts_none r)
    (display_response response).
Proof.
  unfold display_response. destruct response as [r|].
  - destruct (candidates r) as [| |[|c cs]] eqn:Hcands.
    1-3: apply display_parts_raises; intros Hnone; split; [reflexivity|];
         exists r; split; [reflexivity|]; unfold parts_none; now rewrite Hcands.
    apply raises_only_for_each. intros candidate Hin.
    destruct (content candidate) as [| |ct] eqn:Hct; try apply raises_only_ret.
    apply display_parts_raises. intros Hnone. split; [reflexivity|].
    exists r. split; [reflexivity|]. unfold parts_none. rewrite Hcands.
    now exists candidate, ct.
  - intros [l w] e. discriminate.
Qed.

(** Displaying a response changes nothing but the messages shown: the
    caller's variables, the working directory, the clock and the request
    counter are as before.  The only exception it can end with is
    [TypeError], and only for a response in which a parts attribute it walks
    holds [None]; a picture that cannot be decoded is reported, not
    raised. *)
Theorem display_response_only_logs `{Env} {L} response (s : frame L) :
  locals (snd (display_response response s)) = locals s /\
  only_logged (world_of s) (world_of (snd (display_response response s))) /\
  (forall e, fst (display_response response s) = Raise e ->
     e = TypeError /\ exists r, response = Some r /\ parts_none r).
Proof.
  assert (Hstart : logged (locals s) (world_of s) s).
  { split; [reflexivity|]. repeat split. exists []. now rewrite app_nil_r. }
  destruct (display_response_logged (locals s) (world_of s) response s Hstart)
    as [Hlocals Hworld].
  split; [exact Hlocals|]. split; [exact Hworld|].
  intros e. apply display_response_raises.
Qed.

(** ** The basic request *)

Lemma extract_part_disk `{Env} Q n prefix i part :
  kept_by_writes Q -> preserves (saved_on_disk Q n) (extract_part prefix i part).
Proof.
  intros HQ [l w] (Hfiles & Hq & Hn). unfold extract_part.
  destruct (inline_data part) as [| |blob]; try (now repeat split).
  destruct (data blob) as [| |[|b bs]]; try (now repeat split).
  unfold extension.
  destruct (mime_type_or_default blob) as [mime|]; cbn; [|now repeat split].
  split; [|split; [now apply HQ|exact Hn]].
  intros f Hf. cbn in Hf. unfold on_disk. cbn.
  apply elem_of_app in Hf as [Hf|Hf].
  - apply (on_disk_kept f). now apply Hfiles.
  - apply list_elem_of_singleton in Hf as ->. rewrite lookup_insert_eq. now eexists.
Qed.

Lemma extract_parts_preserves `{Env} (P : frame (list string) -> Prop) prefix
    (a : attr (list Part)) :
  (forall i part, preserves P (extract_part prefix i part)) ->
  preserves P
    (if hasattr a
     then (v <- getattr a ;; ps <- iter v ;; for_enumerate 0 ps (extract_part prefix))
     else ret tt).
Proof.
  intros Hpart. destruct a as [| |ps]; simpl.
  - apply preserves_ret.
  - intros s Hs. exact Hs.
  - intros s Hs.
    apply (preserves_for_enumerate P ps (extract_part prefix)); auto.
Qed.

Lemma extract_and_save_images_disk `{Env} {L} Q response prefix (s : frame L) :
  kept_by_writes Q -> Q (fs (world_of s)) ->
  exists r w',
    extract_and_save_images response prefix s = (r, mkFrame (locals s) w') /\
    Q (fs w') /\ requests w' = requests (world_of s) /\
    forall files, r = Ret files -> forall f, f ∈ files -> on_disk w' f.
Proof.
  intros HQ Hq. unfold extract_and_save_images, call.
  set (P := saved_on_disk Q (requests (world_of s))).
  assert (Hstart : P (mkFrame [] (world_of s))).
  { split; [|split; [exact Hq|reflexivity]]. intros f Hf. inversion Hf. }
  destruct response as [r|].
  - match goal with
    | |- context [bind ?m _] =>
        assert (Hloops : preserves P m)
    end.
    { destruct (candidates r) as [| |[|c cs]].
      1-3: apply extract_parts_preserves; intros; now apply extract_part_disk.
      apply preserves_for_each. intros candidate.
      destruct (content candidate) as [| |ct]; try apply preserves_ret.
      apply extract_parts_preserves; intros; now apply extract_part_disk. }
    specialize (Hloops _ Hstart).
    match type of Hloops with
    | context [snd (?m ?fr)] => destruct (m fr) as [[[]|e] [l1 w1]] eqn:Hrun
    end; destruct Hloops as (Hfiles & Hq1 & Hn1); cbn in Hfiles, Hq1, Hn1.
    + rewrite (bind_ret _ _ _ _ _ Hrun). cbn.
      eexists _, _. split; [reflexivity|]. split; [exact Hq1|]. split; [exact Hn1|].
      intros files [= <-]. exact Hfiles.
    + rewrite (bind_raise _ _ _ _ _ Hrun).
      eexists _, _. split; [reflexivity|]. split; [exact Hq1|]. split; [exact Hn1|].
      discriminate.
  - cbn. eexists _, _. split; [reflexivity|]. split; [exact Hq|]. split; [reflexivity|].
    intros files [= <-] f Hf. inversion Hf.
Qed.

Lemma generate_image_basic_effects `{Env} {L} Q prompt (s : frame L) :
  kept_by_writes Q -> Q (fs (world_of s)) ->
  exists files w',
    generate_image_basic prompt s = (Ret files, mkFrame (locals s) w') /\
    (forall f, f ∈ files -> on_disk w' f) /\
    Q (fs w') /\
    requests w' = S (requests (world_of s)) /\
    (generate_content_image (requests (world_of s)) prompt = Ret None \/
     (exists e, generate_content_image (requests (world_of s)) prompt = Raise e) ->
     files = [] /\ fs w' = fs (world_of s)).
Proof.
  intros HQ Hq. destruct s as [l w]. cbn [locals world_of] in *.
  unfold generate_image_basic. step. unfold try_except. step.
  cbn [world_of requests].
  destruct (generate_content_image (requests w) prompt) as [[r|]|e] eqn:Hsvc.
  - step. cbv beta iota. step.
    cbn [locals world_of fs clock requests log].
    match goal with
    | |- context [bind (display_response (Some r)) _ ?fr] => set (s1 := fr)
    end.
    destruct (display_response_logged l (world_of s1) (Some r) s1) as [Hl1 Hw1].
    { split; [reflexivity|]. repeat split. exists []. now rewrite app_nil_r. }
    destruct (display_response (Some r) s1) as [[[]|e] [l2 w2]] eqn:Hshow;
      cbn in Hl1, Hw1; subst l2;
      destruct Hw1 as (Hfs2 & _ & Hreq2 & _).
    + rewrite (bind_ret _ _ _ _ _ Hshow).
      destruct (extract_and_save_images_disk Q (Some r) "basic" (mkFrame l w2) HQ)
        as (res & w3 & Hrun & Hq3 & Hreq3 & Hfiles).
      { cbn. now rewrite Hfs2. }
      cbn in Hrun, Hreq3. rewrite Hrun. destruct res as [files|e].
      * exists files, w3. split; [reflexivity|]. split; [now apply Hfiles|].
        split; [exact Hq3|]. split; [now rewrite Hreq3, Hreq2|].
        intros [Hnone|[e He]]; discriminate.
      * eexists [], _. split; [reflexivity|]. split; [intros f Hf; inversion Hf|].
        split; [exact Hq3|]. split; [cbn; now rewrite Hreq3, Hreq2|].
        intros [Hnone|[e' He]]; discriminate.
    + rewrite (bind_raise _ _ _ _ _ Hshow).
      eexists [], _. split; [reflexivity|]. split; [intros f Hf; inversion Hf|].
      cbn. split; [now rewrite Hfs2|]. split; [now rewrite Hreq2|].
      intros [Hnone|[e' He]]; discriminate.
  - eexists [], _. split; [reflexivity|]. split; [intros f Hf; inversion Hf|].
    cbn. repeat split; assumption.
  - eexists [], _. split; [reflexivity|]. split; [intros f Hf; inversion Hf|].
    cbn. repeat split; assumption.
Qed.

(** The basic request never raises and leaves the caller's variables
    alone: whatever the service answers, and whatever fails while the answer
    is shown or its images are saved, it returns a list of file names after
    one request.  Every file it returns is in the working directory, the
    files that were there stay, and a request that fails or gives no
    response returns the empty list and writes nothing. *)
Theorem generate_image_basic_never_raises `{Env} {L} prompt (s : frame L) :
  exists files w',
    generate_image_basic prompt s = (Ret files, mkFrame (locals s) w') /\
    (forall f, f ∈ files -> on_disk w' f) /\
    (forall f, on_disk (world_of s) f -> on_disk w' f) /\
    requests w' = S (requests (world_of s)) /\
    (generate_content_image (requests (world_of s)) prompt = Ret None \/
     (exists e, generate_content_image (requests (world_of s)) prompt = Raise e) ->
     files = [] /\ fs w' = fs (world_of s)).
Proof.
  destruct (generate_image_basic_effects (fun _ => True) prompt s)
    as (files & w' & Hrun & Hfiles & _ & Hreq & Hnone); [easy|easy|].
  exists files, w'. split; [exact Hrun|]. split; [exact Hfiles|].
  split; [|split; [exact Hreq|exact Hnone]].
  intros f Hf.
  destruct (generate_image_basic_effects _ prompt s (on_disk_kept f) Hf)
    as (files2 & w2 & Hrun2 & _ & Hkept & _).
  rewrite Hrun in Hrun2. now injection Hrun2 as _ <-.
Qed.

(** ** Step 2 as a whole *)


(** ** The export after the meme loop *)

Lemma export_row_undecodable `{Env} n item ws w d :
  fs w !! image_path item = Some (Bytes d) ->
  image_open d = None ->
  export_row n item (mkFrame ws w)
  = (Raise UnidentifiedImageError,
     mkFrame (mkWorksheet (title ws) (row_cells n item (cells ws)) (images ws)) w).
Proof.
  intros Hfile Hopen. unfold export_row.
  do 9 (rewrite (bind_ret _ _ _ _ _ (ws_cell_run _ _ _ _ _))).
  unfold XLImage_load, Image_open_path, Image_open, bind, get_world. cbn [world_of].
  rewrite Hfile, Hopen. reflexivity.
Qed.

(** With every image file in the working directory, the rows are written
    until an image fails to decode. *)
Lemma export_rows_on_disk `{Env} items : forall n ws w,
  Forall (fun item => on_disk w (image_path item)) items ->
  exists r ws',
    for_enumerate n items export_row (mkFrame ws w) = (r, mkFrame ws' w) /\
    (r = Ret tt \/ r = Raise UnidentifiedImageError).
Proof.
  induction items as [|item rest IH]; intros n ws w Hall; simpl.
  - eexists _, _. split; [reflexivity|now left].
  - inversion Hall as [|? ? [d Hfile] Hrest]; subst.
    destruct (image_open d) as [size|] eqn:Hopen.
    + rewrite (bind_ret _ _ _ _ _
                 (export_row_run n item ws w
                    (ex_intro _ d (ex_intro _ size (conj Hfile Hopen))))).
      now apply IH.
    + rewrite (bind_raise _ _ _ _ _ (export_row_undecodable n item ws w d Hfile Hopen)).
      eexists _, _. split; [reflexivity|now right].
Qed.

Lemma export_on_disk `{Env} st w df items :
  marketing_data st = Some df ->
  generated_images st = Some items ->
  Forall (fun item => on_disk w (image_path item)) items ->
  fst (export_to_excel (mkFrame st w)) = Ret tt \/
  fst (export_to_excel (mkFrame st w)) = Raise UnidentifiedImageError.
Proof.
  intros Hdata Hitems Hall.
  destruct (export_rows_on_disk items 2 (mkWorksheet "Memes" (header_cells ∅) []) w Hall)
    as (r & ws' & Hrows & Hr).
  unfold export_to_excel. step. cbn [locals]. rewrite Hdata, Hitems.
  destruct Hr as [-> | ->].
  - assert (Hcall : call (L:=session_state) (build_workbook items)
                      (mkWorksheet "Sheet" ∅ []) (mkFrame st w)
                    = (Ret ws', mkFrame st w)).
    { unfold call, build_workbook. cbn [world_of locals]. step. step.
      rewrite (bind_ret _ _ _ _ _ (header_row_run _ _)). cbn [title cells images].
      now rewrite (bind_ret _ _ _ _ _ Hrows). }
    rewrite (bind_ret _ _ _ _ _ Hcall). now left.
  - assert (Hcall : call (L:=session_state) (build_workbook items)
                      (mkWorksheet "Sheet" ∅ []) (mkFrame st w)
                    = (Raise UnidentifiedImageError, mkFrame st w)).
    { unfold call, build_workbook. cbn [world_of locals]. step. step.
      rewrite (bind_ret _ _ _ _ _ (header_row_run _ _)). cbn [title cells images].
      now rewrite (bind_raise _ _ _ _ _ Hrows). }
    rewrite (bind_raise _ _ _ _ _ Hcall). now right.
Qed.

(** Right after the meme loop the export finds every image file it needs:
    it completes, or it stops at an image that was saved but does not
    decode; it never fails for a missing file. *)
Theorem export_after_memes `{Env} st w df idx idxs :
  marketing_data st = Some df ->
  Forall (fun i => i < length df) (idx :: idxs) ->
  fst (export_to_excel (snd (generate_memes (idx :: idxs) (mkFrame st w)))) = Ret tt \/
  fst (export_to_excel (snd (generate_memes (idx :: idxs) (mkFrame st w))))
  = Raise UnidentifiedImageError.
Proof.
  intros Hdata Hrange.
  destruct (generate_meme_loop df (idx :: idxs) [] w Hrange)
    as (generated & w1 & Hloop & _ & Hrec & _).
  rewrite (generate_memes_state st w df idx idxs generated w1 Hdata Hloop).
  cbn [snd]. apply (export_on_disk _ _ df generated); [reflexivity|reflexivity|].
  eapply Forall_impl; [exact Hrec|].
  intros a (row & ext & _ & _ & _ & Hdisk). exact Hdisk.
Qed.

(** ** The properties on the sample inputs *)

Lemma sample_table_dotted streams answer : dotted_table (H:=sample_env streams answer).
Proof.
  intros mime e. cbn. unfold sample_table.
  repeat destruct (String.eqb mime _); intros [= <-]; eexists; reflexivity.
Qed.

(** The selection of the options of rows 1 and 0 of [two_rows]. *)
Lemma selection_gives_rows_witness :
  exists idxs,
    selected_indices picked two_rows = Some (map Z.of_nat idxs) /\
    Forall (fun i => i < length two_rows) idxs /\
    ("Select All" ∈ picked -> idxs = seq 0 (length two_rows)) /\
    ("Select All" ∉ picked ->
     Forall2 (fun opt i => exists row, two_rows !! i = Some row /\ opt = option_text i row)
       picked idxs).
Proof.
  apply (selection_gives_rows two_rows picked).
  vm_compute. repeat constructor.
Defined.

(** The two files of the request answered by [failing_stream]. *)
Lemma streaming_names_distinct_witness :
  dotted_table (H:=failing_env) /\
  fst (generate_image_streaming (H:=failing_env) (L:=unit) "a meme" "stream"
         (mkFrame tt empty_world))
  = Ret ["stream_0.jpg"; "stream_1.png"] /\
  NoDup ["stream_0.jpg"; "stream_1.png"].
Proof.
  split; [apply sample_table_dotted|]. split; [reflexivity|].
  apply (streaming_names_distinct (H:=failing_env) (L:=unit) "a meme" "stream"
           (mkFrame tt empty_world) ["stream_0.jpg"; "stream_1.png"]);
    [apply sample_table_dotted|reflexivity].
Defined.

(** The files of rows 0 and 1, each answered by [failing_stream]. *)
Lemma rows_never_share_files_witness :
  Forall (fun f => f ∉ ["meme_1_0.jpg"; "meme_1_1.png"]) ["meme_0_0.jpg"; "meme_0_1.png"].
Proof.
  apply (rows_never_share_files (H:=failing_env) (L:=unit) 0 1 "first" "second"
           (mkFrame tt empty_world) (mkFrame tt empty_world)
           ["meme_0_0.jpg"; "meme_0_1.png"] ["meme_1_0.jpg"; "meme_1_1.png"]);
    [lia|reflexivity|reflexivity].
Defined.

(** The meme loop over rows 1 and 0 of [two_rows]. *)
Lemma generate_memes_records_witness :
  exists generated w',
    generate_memes (H:=failing_env) [1; 0] (mkFrame meme_session empty_world)
    = (Ret tt,
       mkFrame (mkSession (business_info meme_session) (Some two_rows) (Some generated)) w') /\
    map a_row generated `sublist_of` [1; 0] /\
    Forall (recorded (H:=failing_env) two_rows w') generated /\
    requests w' = length [1; 0] + requests empty_world.
Proof.
  apply (generate_memes_records (H:=failing_env) meme_session empty_world two_rows 1 [0]);
    [reflexivity|].
  repeat constructor.
Defined.

(** The meme loop over row 0 and then index 2, which [two_rows] lacks. *)
Lemma generate_memes_out_of_range_witness :
  exists w',
    generate_memes (H:=failing_env) ([0] ++ 2 :: [1]) (mkFrame meme_session empty_world)
    = (Raise IndexError, mkFrame meme_session w') /\
    requests w' = length [0] + requests empty_world.
Proof.
  apply (generate_memes_out_of_range (H:=failing_env) meme_session empty_world two_rows
           [0] 2 [1]);
    [reflexivity|repeat constructor|simpl; lia].
Defined.

(** The export after the meme loop over rows 1 and 0 of [two_rows]. *)
Lemma export_after_memes_witness :
  fst (export_to_excel (H:=failing_env)
         (snd (generate_memes (H:=failing_env) [1; 0] (mkFrame meme_session empty_world))))
  = Ret tt \/
  fst (export_to_excel (H:=failing_env)
         (snd (generate_memes (H:=failing_env) [1; 0] (mkFrame meme_session empty_world))))
  = Raise UnidentifiedImageError.
Proof.
  apply (export_after_memes (H:=failing_env) meme_session empty_world two_rows 1 [0]);
    [reflexivity|].
  repeat constructor.
Defined.
